(** * particeps: a shallow embedding of [particeps.go]

    The Go package uploads a local file to one of four hosting services and
    normalises the provider's answer into a [UniversalResponse].  This file
    embeds every function of [particeps.go] and states the properties of the
    package's specification over the embedding.

    Conventions of the embedding:
    - a Go [string] is a sequence of bytes: Rocq's [string];
    - a Go [int] is a [Z] (no value in the package comes near the 64-bit limit
      except where the conversion from a float is written out);
    - a Go [(T, error)] result is a pair [T * option error], [None] being [nil];
    - a run-time panic and a process exit are outcomes of their own;
    - calls into the standard library whose result depends on the file system,
      the network or on code outside the package are fields of an [Env]. *)

From Stdlib Require Import ZArith QArith Qround Qabs Qpower Qreduction.
From Stdlib Require Import String Ascii List Bool Lia Lqa DecimalString.
Import ListNotations.

Local Open Scope string_scope.
Local Open Scope Z_scope.

(** ** Outcomes of a Go call *)

Inductive outcome (A : Type) : Type :=
| Returns (a : A)          (* the call returns normally *)
| Panics (msg : string)    (* a run-time panic unwinds the call *)
| Exits (code : Z).        (* [os.Exit], reached through [log.Fatalln] *)

Arguments Returns {A} a.
Arguments Panics {A} msg.
Arguments Exits {A} code.

Definition obind {A B} (o : outcome A) (k : A -> outcome B) : outcome B :=
  match o with
  | Returns a => k a
  | Panics msg => Panics msg
  | Exits c => Exits c
  end.

(** ** Providers *)

(** The constants [AnonFiles = iota + 1], [BayFiles], [Imgur], [Filebin],
    [Imagebin]; [particeps.go] declares them and dispatches on none. *)
Inductive Provider : Type := AnonFiles | BayFiles | Imgur | Filebin | Imagebin.

Definition providerCode (p : Provider) : Z :=
  match p with
  | AnonFiles => 1
  | BayFiles => 2
  | Imgur => 3
  | Filebin => 4
  | Imagebin => 5
  end.

(** ** Strings *)

Module GoString.

(** [len(s)] *)
Definition len (s : string) : Z := Z.of_nat (String.length s).

(** [s[n:]] on an index already known to be in range. *)
Fixpoint drop (n : nat) (s : string) : string :=
  match n, s with
  | O, _ => s
  | S n', String _ s' => drop n' s'
  | S _, EmptyString => EmptyString
  end.

(** [s[lo:hi]]: Go panics unless [0 <= lo <= hi <= len(s)]. *)
Definition slice (s : string) (lo hi : Z) : outcome string :=
  if (0 <=? lo) && (lo <=? hi) && (hi <=? len s)
  then Returns (substring (Z.to_nat lo) (Z.to_nat (hi - lo)) s)
  else Panics "slice bounds out of range".

(** [word] occurs in [value] at byte offset [i]. *)
Definition occursAt (word value : string) (i : Z) : Prop :=
  0 <= i <= len value /\ prefix word (drop (Z.to_nat i) value) = true.

(** Scan of [strings.LastIndex]: [i] is the offset of [s] in the whole
    string, [acc] the last offset found so far. *)
Fixpoint lastIndexFrom (i : Z) (s substr : string) (acc : Z) : Z :=
  let acc' := if prefix substr s then i else acc in
  match s with
  | EmptyString => acc'
  | String _ s' => lastIndexFrom (i + 1) s' substr acc'
  end.

(** [strings.LastIndex(s, substr)]: the index of the last instance of
    [substr] in [s], or -1. *)
Definition LastIndex (s substr : string) : Z := lastIndexFrom 0 s substr (-1).

End GoString.

(** ** [getStringAfterWord] *)

Definition getStringAfterWord (value word : string) : outcome string :=
  let pos := GoString.LastIndex value word in
  if pos =? -1 then Returns EmptyString
  else
    let adjustedPos := pos + GoString.len word in
    if adjustedPos >=? GoString.len value then Returns EmptyString
    else GoString.slice value adjustedPos (GoString.len value).

(** ** [float64]

    A float64 is one of the special values or a finite number, kept as the
    rational it denotes.  Every arithmetic operation computes the exact
    rational result and rounds it to the nearest binary64 number, ties to
    even ([rnd64]), which is IEEE 754's definition of the operation.  The
    sign of zero is not tracked: the package never observes it. *)

Module Float64.

Inductive float64 : Type :=
| NaN
| PInf
| NInf
| Finite (q : Q).

Definition inf (negative : bool) : float64 := if negative then NInf else PInf.

Definition Qneg (q : Q) : bool := (Qnum q <? 0)%Z.
Definition Qzero (q : Q) : bool := (Qnum q =? 0)%Z.

(** [2^e] for any integer [e]. *)
Definition pow2 (e : Z) : Q := Qpower (2 # 1) e.

(** [floor (log2 q)] for [q > 0]. *)
Definition ilog2 (q : Q) : Z :=
  let e0 := Z.log2 (Qnum q) - Z.log2 (Zpos (Qden q)) in
  if Qle_bool (pow2 e0) q then e0 else e0 - 1.

(** Nearest integer, ties to the even one. *)
Definition roundHalfEven (q : Q) : Z :=
  let f := Qfloor q in
  match Qcompare (q - inject_Z f) (1 # 2) with
  | Lt => f
  | Gt => f + 1
  | Eq => if Z.even f then f else f + 1
  end.

(** Magnitude of the binary64 number nearest to [a > 0]: 53 significant
    bits, exponents from -1022 (below it the spacing stays [2^-1074]). *)
Definition rndMagnitude (a : Q) : Q :=
  let e := Z.max (ilog2 a) (-1022) in
  let ulp := pow2 (e - 52) in
  (inject_Z (roundHalfEven (a / ulp)) * ulp)%Q.

(** Rounding of an exact result to binary64; [2^1024] and above is
    overflow. *)
Definition rnd64 (q : Q) : float64 :=
  let q := Qred q in
  if Qzero q then Finite 0
  else
    let r := rndMagnitude (Qabs q) in
    if Qle_bool (pow2 1024) r then inf (Qneg q)
    else Finite (Qred (if Qneg q then - r else r)).

Definition fmul (x y : float64) : float64 :=
  match x, y with
  | NaN, _ | _, NaN => NaN
  | Finite a, Finite b => rnd64 (a * b)
  | Finite a, PInf | PInf, Finite a => if Qzero a then NaN else inf (Qneg a)
  | Finite a, NInf | NInf, Finite a => if Qzero a then NaN else inf (negb (Qneg a))
  | PInf, PInf | NInf, NInf => PInf
  | PInf, NInf | NInf, PInf => NInf
  end.

Definition fdiv (x y : float64) : float64 :=
  match x, y with
  | NaN, _ | _, NaN => NaN
  | Finite a, Finite b =>
      if Qzero b then (if Qzero a then NaN else inf (Qneg a))
      else rnd64 (a / b)
  | Finite _, PInf | Finite _, NInf => Finite 0
  | PInf, Finite b => inf (Qneg b)
  | NInf, Finite b => inf (negb (Qneg b))
  | _, _ => NaN
  end.

Definition fsub (x y : float64) : float64 :=
  match x, y with
  | NaN, _ | _, NaN => NaN
  | Finite a, Finite b => rnd64 (a - b)
  | PInf, PInf | NInf, NInf => NaN
  | PInf, _ | _, NInf => PInf
  | NInf, _ | _, PInf => NInf
  end.

(** [x >= y]; false as soon as one side is NaN. *)
Definition fge (x y : float64) : bool :=
  match x, y with
  | NaN, _ | _, NaN => false
  | PInf, _ | _, NInf => true
  | NInf, _ | _, PInf => false
  | Finite a, Finite b => Qle_bool b a
  end.

(** Integer part, rounding toward zero. *)
Definition Qtrunc (q : Q) : Z := if Qneg q then Qceiling q else Qfloor q.

(** [math.Floor]: special cases [Floor(+-Inf) = +-Inf], [Floor(NaN) = NaN]. *)
Definition Floor (x : float64) : float64 :=
  match x with
  | Finite q => Finite (inject_Z (Qfloor q))
  | _ => x
  end.

(** [math.Ceil]: special cases [Ceil(+-Inf) = +-Inf], [Ceil(NaN) = NaN]. *)
Definition Ceil (x : float64) : float64 :=
  match x with
  | Finite q => Finite (inject_Z (Qceiling q))
  | _ => x
  end.

(** [math.Modf]: integer and fractional parts, both with the sign of the
    argument; [Modf(+-Inf) = +-Inf, NaN], [Modf(NaN) = NaN, NaN]. *)
Definition Modf (x : float64) : float64 * float64 :=
  match x with
  | Finite q => (Finite (inject_Z (Qtrunc q)), Finite (Qred (q - inject_Z (Qtrunc q))))
  | _ => (x, NaN)
  end.

Definition minInt64 : Z := - 2 ^ 63.
Definition maxInt64 : Z := 2 ^ 63 - 1.

(** [int(x)]: truncation toward zero.  When the value does not fit an
    int64, and for NaN and the infinities, Go leaves the result to the
    implementation.  For NaN the ports disagree on whether the result is a
    small number (amd64 gives the smallest int64, arm64 and wasm give 0):
    it is the argument [nan].  For an overflow the ports give the smallest
    or the largest int64, the smallest on every port when the value is
    negative; the smallest is taken here. *)
Definition toInt (nan : Z) (x : float64) : Z :=
  match x with
  | Finite q =>
      let t := Qtrunc q in
      if (minInt64 <=? t) && (t <=? maxInt64) then t else minInt64
  | NaN => nan
  | PInf | NInf => minInt64
  end.

(** [float64(n)] *)
Definition ofInt (n : Z) : float64 := rnd64 (inject_Z n).

End Float64.

(** ** Data model *)

(** Modelled from the spec: the declaration of [UniversalResponse] is in a
    file of the package that is other than [particeps.go]; the spec
    gives its fields (status, full URL, short URL) and [particeps.go] uses
    them under these names. *)
Record UniversalResponse : Type := {
  Status : bool;
  FullURL : string;
  ShortURL : string
}.

(** The zero value [var result UniversalResponse]. *)
Definition zeroResponse : UniversalResponse :=
  {| Status := false; FullURL := EmptyString; ShortURL := EmptyString |}.

(** Modelled from the spec: [AnonFilesSuccess], declared outside
    [particeps.go], mirrors
    [{status: bool, data: {file: {url: {full: string, short: string}}}}]. *)
Record AnonFilesURL : Type := { Full : string; Short : string }.
Record AnonFilesFile : Type := { URL : AnonFilesURL }.
Record AnonFilesData : Type := { File : AnonFilesFile }.
Record AnonFilesSuccess : Type := { AStatus : bool; Data : AnonFilesData }.

(** Modelled from the spec: [FilebinSuccess], declared outside
    [particeps.go], mirrors [{links: [ {href: string}, ... ]}]. *)
Record FilebinLink : Type := { Href : string }.
Record FilebinSuccess : Type := { Links : list FilebinLink }.

(** Errors, by the library call that produces them. *)
Record PathError : Type := { Op : string; Path : string; Cause : string }.

Inductive error : Type :=
| ErrPath (e : PathError)           (* [*os.PathError] of [os.Stat], [os.Open] *)
| ErrMultipart (msg : string)       (* a part header could not be written *)
| ErrRequest (msg : string)         (* [http.NewRequest] refused its arguments *)
| ErrTransport (msg : string)       (* [*url.Error] of the HTTP round trip *)
| ErrRead (msg : string)            (* reading the response body failed *)
| ErrDecode (msg : string).         (* [json.Unmarshal] rejected the body *)

(** [os.FileInfo], of which only [Size()] is read. *)
Record FileInfo : Type := { Size : Z }.

(** A multipart form under construction ([multipart.Writer] over a
    [bytes.Buffer]): the parts written so far, newest first, and whether the
    closing boundary has been written. *)
Record FormPart : Type := {
  FieldName : string;
  FileName : string;
  Content : string
}.

Record MultipartWriter : Type := {
  Boundary : string;
  PartsRev : list FormPart;
  Closed : bool
}.

Inductive RequestBody : Type :=
| RawBody (bytes : string)
| FormBody (boundary : string) (parts : list FormPart) (closed : bool).

Record Request : Type := {
  Method : string;
  Target : string;
  Header : list (string * string);
  Body : RequestBody
}.

(** An HTTP response, of which only the body is read; [RespBody] is what
    [ioutil.ReadAll(resp.Body)] gives. *)
Record Response : Type := { RespBody : error + string }.

(** What a call leaves behind besides its result. *)
Inductive event : Type :=
| Stderr (text : string)       (* bytes written to [os.Stderr] *)
| LogFatal (e : error)         (* the line [log.Fatalln] prints before exiting *)
| Sent (r : Request).          (* a request handed to the HTTP client *)

(** ** The environment

    Results of the standard-library calls that the package cannot compute by
    itself: the file system, the HTTP round trip, the random multipart
    boundary, the library functions with no closed form here
    ([math.Log], [math.Pow], [strconv.FormatFloat], [json.Unmarshal]), and
    the one conversion that Go leaves to the port and on which the ports
    differ within the range of a table index ([int(NaN)]). *)
Record Env : Type := {
  os_Stat : string -> PathError + FileInfo;
  os_Open : string -> PathError + string;           (* the bytes of the file *)
  multipart_boundary : string;
  multipart_writeError : option error;              (* of writing a part header *)
  http_requestError : string -> string -> option error;   (* method, URL *)
  http_roundTrip : Request -> error + Response;
  json_Unmarshal_AnonFilesSuccess : string -> error + AnonFilesSuccess;
  json_Unmarshal_FilebinSuccess : string -> error + FilebinSuccess;
  math_Log : Float64.float64 -> Float64.float64;
  math_Pow : Float64.float64 -> Float64.float64 -> Float64.float64;
  strconv_FormatFloat : Float64.float64 -> string;  (* format 'f', precision -1, 64 bits *)
  int_of_NaN : Z                                    (* what the port makes of [int(NaN)] *)
}.

(** What the documentation of package [math] fixes and the package relies
    on: [Log(0) = -Inf], [Pow(x, 0) = 1], and a positive finite [Log(1024)]. *)
Record MathSpecialCases (E : Env) : Prop := {
  Log_zero : math_Log E (Float64.Finite 0) = Float64.NInf;
  Log_1024 : exists l, math_Log E (Float64.Finite (1024 # 1)) = Float64.Finite l /\ (0 < l)%Q;
  Pow_zero : forall x, math_Pow E x (Float64.Finite 0) = Float64.Finite 1
}.

(** ** Calls with effects: a result together with the events emitted *)

Definition M (A : Type) : Type := (list event * outcome A)%type.

Definition ret {A} (a : A) : M A := ([], Returns a).

Definition bind {A B} (m : M A) (k : A -> M B) : M B :=
  match m with
  | (t, Returns a) => let (t', o) := k a in ((t ++ t')%list, o)
  | (t, Panics msg) => (t, Panics msg)
  | (t, Exits c) => (t, Exits c)
  end.

Definition emit (e : event) : M unit := ([e], Returns tt).
Definition lift {A} (o : outcome A) : M A := ([], o).
Definition exit {A} (code : Z) : M A := ([], Exits code).

Definition trace {A} (m : M A) : list event := fst m.
Definition result {A} (m : M A) : outcome A := snd m.

Notation "x <- c ;; k" := (bind c (fun x => k))
  (at level 61, c at next level, right associativity).
Notation "c ;;; k" := (bind c (fun _ => k))
  (at level 61, right associativity).

(** ** Library calls used by the package *)

(** [s[i]] on a slice or array: Go panics when [i] is out of range. *)
Definition index {A} (s : list A) (i : Z) : outcome A :=
  if i <? 0 then Panics "index out of range"
  else match nth_error s (Z.to_nat i) with
       | Some a => Returns a
       | None => Panics "index out of range"
       end.

Definition dquote : string := String (ascii_of_nat 34) EmptyString.
Definition newline : string := String (ascii_of_nat 10) EmptyString.

Module Filepath.

Definition isSeparator (c : ascii) : bool := Ascii.eqb c "/"%char.

Fixpoint dropSeparators (l : list ascii) : list ascii :=
  match l with
  | c :: l' => if isSeparator c then dropSeparators l' else l
  | [] => []
  end.

Fixpoint takeElement (l : list ascii) : list ascii :=
  match l with
  | c :: l' => if isSeparator c then [] else c :: takeElement l'
  | [] => []
  end.

(** [filepath.Base] (slash-separated paths): the last element of the
    path, trailing slashes removed; "." for the empty path and "/" for a
    path of slashes only. *)
Definition Base (path : string) : string :=
  if (path =? EmptyString)%string then "."
  else
    let last := takeElement (dropSeparators (rev (list_ascii_of_string path))) in
    match last with
    | [] => "/"
    | _ => string_of_list_ascii (rev last)
    end.

End Filepath.

Module Multipart.

(** [multipart.NewWriter(bytes.NewBuffer(nil))] *)
Definition NewWriter (boundary : string) : MultipartWriter :=
  {| Boundary := boundary; PartsRev := []; Closed := false |}.

(** [mw.CreateFormFile(fieldname, filename)]: writes the header of a new
    part whose [filename] parameter is the string it is given. *)
Definition CreateFormFile (E : Env) (mw : MultipartWriter) (fieldname filename : string)
  : MultipartWriter * option error :=
  match multipart_writeError E with
  | Some e => (mw, Some e)
  | None =>
      ({| Boundary := Boundary mw;
          PartsRev := {| FieldName := fieldname; FileName := filename;
                         Content := EmptyString |} :: PartsRev mw;
          Closed := Closed mw |}, None)
  end.

(** [io.Copy(partWriter, fileReader)] with its results dropped.
    [fileReader] is what [os.Open] returned: the file, or a nil [*os.File]
    whose reads fail at once, so that nothing is copied. *)
Definition Copy (mw : MultipartWriter) (fileReader : PathError + string) : MultipartWriter :=
  match fileReader, PartsRev mw with
  | inr bytes, p :: ps =>
      {| Boundary := Boundary mw;
         PartsRev := {| FieldName := FieldName p; FileName := FileName p;
                        Content := Content p ++ bytes |} :: ps;
         Closed := Closed mw |}
  | _, _ => mw
  end.

(** [mw.Close()] *)
Definition Close (mw : MultipartWriter) : MultipartWriter :=
  {| Boundary := Boundary mw; PartsRev := PartsRev mw; Closed := true |}.

(** [mw.FormDataContentType()] *)
Definition FormDataContentType (mw : MultipartWriter) : string :=
  "multipart/form-data; boundary=" ++ Boundary mw.

(** The buffer the writer has filled. *)
Definition buffer (mw : MultipartWriter) : RequestBody :=
  FormBody (Boundary mw) (rev (PartsRev mw)) (Closed mw).

End Multipart.

Module HTTP.

(** [http.NewRequest(method, url, body)] *)
Definition NewRequest (E : Env) (method url : string) (body : RequestBody) : error + Request :=
  match http_requestError E method url with
  | Some e => inl e
  | None => inr {| Method := method; Target := url; Header := []; Body := body |}
  end.

Fixpoint setKey (h : list (string * string)) (k v : string) : list (string * string) :=
  match h with
  | [] => [(k, v)]
  | (k', v') :: h' => if (k' =? k)%string then (k, v) :: h' else (k', v') :: setKey h' k v
  end.

(** [req.Header.Set(key, value)] *)
Definition HeaderSet (req : Request) (k v : string) : Request :=
  {| Method := Method req; Target := Target req;
     Header := setKey (Header req) k v; Body := Body req |}.

(** [http.DefaultClient.Do(req)] *)
Definition Do (E : Env) (req : Request) : M (error + Response) :=
  emit (Sent req) ;;; ret (http_roundTrip E req).

(** [http.Post(url, contentType, body)] *)
Definition Post (E : Env) (url contentType : string) (body : RequestBody) : M (error + Response) :=
  match NewRequest E "POST" url body with
  | inl e => ret (inl e)
  | inr req => Do E (HeaderSet req "Content-Type" contentType)
  end.

End HTTP.

(** ** The package *)

Section Particeps.

Variable E : Env.

Import Float64.

(** [func round(val float64, roundOn float64, places int) float64] *)
Definition round (val roundOn : float64) (places : Z) : float64 :=
  let pow := math_Pow E (Finite (10 # 1)) (ofInt places) in
  let digit := fmul pow val in
  let '(_, div) := Modf digit in
  let round := if fge div roundOn then Ceil digit else Floor digit in
  fdiv round pow.

(** [func prettySize(sizeInBytes float64) string] *)
Definition prettySize (sizeInBytes : float64) : outcome string :=
  let suffixes := ["B"; "KB"; "MB"; "GB"] in
  let base := fdiv (math_Log E sizeInBytes) (math_Log E (Finite (1024 # 1))) in
  let size := round (math_Pow E (Finite (1024 # 1)) (fsub base (Floor base))) (Finite (1 # 2)) 2 in
  obind (index suffixes (toInt (int_of_NaN E) (Floor base))) (fun suffix =>
  Returns (strconv_FormatFloat E size ++ " " ++ suffix)).

(** [func CheckFile(filename string) (string, error)] *)
Definition CheckFile (filename : string) : M (string * option error) :=
  match os_Stat E filename with
  | inl err =>
      emit (Stderr ("particeps: error: could not find file "
                      ++ dquote ++ filename ++ dquote ++ newline)) ;;;
      ret (EmptyString, Some (ErrPath err))
  | inr fileInfo =>
      s <- lift (prettySize (ofInt (Size fileInfo))) ;;
      ret (s, None)
  end.

(** [func ImagebinUpload(filename string) (UniversalResponse, error)] *)
Definition ImagebinUpload (filename : string) : M (UniversalResponse * option error) :=
  let result := zeroResponse in
  let mw := Multipart.NewWriter (multipart_boundary E) in
  match Multipart.CreateFormFile E mw "file" filename with
  | (_, Some err) => ret (result, Some err)
  | (mw, None) =>
      let fileReader := os_Open E filename in     (* its error is overwritten below *)
      let mw := Multipart.Copy mw fileReader in
      let mw := Multipart.Close mw in
      r <- HTTP.Post E "https://imagebin.ca/upload.php"
             (Multipart.FormDataContentType mw) (Multipart.buffer mw) ;;
      match r with
      | inl err => ret (result, Some err)
      | inr resp =>
          match RespBody resp with
          | inl err => ret (result, Some err)
          | inr body =>
              url <- lift (getStringAfterWord body "url:") ;;
              let result := {| Status := Status result; FullURL := url;
                               ShortURL := ShortURL result |} in
              if (FullURL result =? EmptyString)%string then ret (result, None)
              else ret ({| Status := true; FullURL := FullURL result;
                           ShortURL := ShortURL result |}, None)
          end
      end
  end.

(** [func uploadFile(filename, destURI string) (UniversalResponse, error)] *)
Definition uploadFile (filename destURI : string) : M (UniversalResponse * option error) :=
  let returnValue := zeroResponse in
  let mw := Multipart.NewWriter (multipart_boundary E) in
  match Multipart.CreateFormFile E mw "file" filename with
  | (_, Some err) => emit (LogFatal err) ;;; exit 1
  | (mw, None) =>
      let fileReader := os_Open E filename in     (* its error is overwritten below *)
      let mw := Multipart.Copy mw fileReader in
      let mw := Multipart.Close mw in
      r <- HTTP.Post E destURI (Multipart.FormDataContentType mw) (Multipart.buffer mw) ;;
      match r with
      | inl err => ret (returnValue, Some err)
      | inr resp =>
          match RespBody resp with
          | inl err => ret (returnValue, Some err)
          | inr body =>
              match json_Unmarshal_AnonFilesSuccess E body with
              | inl err => ret (returnValue, Some err)
              | inr successResponse =>
                  ret ({| Status := AStatus successResponse;
                          FullURL := Full (URL (File (Data successResponse)));
                          ShortURL := Short (URL (File (Data successResponse))) |}, None)
              end
          end
      end
  end.

(** [func FilebinUpload(filename string) (UniversalResponse, error)] *)
Definition FilebinUpload (filename : string) : M (UniversalResponse * option error) :=
  let returnValue := zeroResponse in
  match os_Open E filename with
  | inl err => ret (returnValue, Some (ErrPath err))
  | inr f =>
      match HTTP.NewRequest E "POST" "https://filebin.net" (RawBody f) with
      | inl err => ret (returnValue, Some err)
      | inr req =>
          let req := HTTP.HeaderSet req "Filename" (Filepath.Base filename) in
          let req := HTTP.HeaderSet req "Content-Type" "application/x-www-form-urlencoded" in
          r <- HTTP.Do E req ;;
          match r with
          | inl err => ret (returnValue, Some err)
          | inr resp =>
              match RespBody resp with
              | inl err => ret (returnValue, Some err)
              | inr body =>
                  match json_Unmarshal_FilebinSuccess E body with
                  | inl err => ret (returnValue, Some err)
                  | inr successResponse =>
                      link <- lift (index (Links successResponse) 1) ;;
                      if negb (Href link =? EmptyString)%string
                      then ret ({| Status := true; FullURL := Href link;
                                   ShortURL := ShortURL returnValue |}, None)
                      else ret (returnValue, None)
                  end
              end
          end
      end
  end.

(** [func BayFilesUpload(filename string) (UniversalResponse, error)] *)
Definition BayFilesUpload (filename : string) : M (UniversalResponse * option error) :=
  uploadFile filename "https://api.bayfiles.com/upload".

(** [func AnonFilesUpload(filename string) (UniversalResponse, error)] *)
Definition AnonFilesUpload (filename : string) : M (UniversalResponse * option error) :=
  uploadFile filename "https://api.anonfiles.com/upload".

End Particeps.

(** ** Vocabulary of the specification *)

(** [pos] is the offset of the last occurrence of [word] in [value]. *)
Definition lastOccurrence (word value : string) (pos : Z) : Prop :=
  GoString.occursAt word value pos /\
  forall j, pos < j -> ~ GoString.occursAt word value j.

(** [word] does not occur in [value]. *)
Definition absent (word value : string) : Prop :=
  forall i, ~ GoString.occursAt word value i.

(** The request that the two multipart paths hand to the HTTP client: one
    closed form whose only part is the field "file", named by the string the
    caller passed and filled with the bytes that could be read. *)
Definition formRequest (E : Env) (filename destURI : string) : Request :=
  {| Method := "POST";
     Target := destURI;
     Header := [("Content-Type", "multipart/form-data; boundary=" ++ multipart_boundary E)];
     Body := FormBody (multipart_boundary E)
               [{| FieldName := "file";
                   FileName := filename;
                   Content := match os_Open E filename with
                              | inr bytes => bytes
                              | inl _ => EmptyString
                              end |}]
               true |}.

(** The request of the raw-body path. *)
Definition filebinRequest (filename bytes : string) : Request :=
  {| Method := "POST";
     Target := "https://filebin.net";
     Header := [("Filename", Filepath.Base filename);
                ("Content-Type", "application/x-www-form-urlencoded")];
     Body := RawBody bytes |}.

(** Round-half-up at [p] decimal places, as the specification words it:
    the multiple of [10^-p] nearest to [v], a tie going up. *)
Definition spec_roundHalfUp (v : Q) (p : Z) : Q :=
  (inject_Z (Qfloor (v * Qpower (10 # 1) p + (1 # 2))) / Qpower (10 # 1) p)%Q.

(** ** Test doubles

    Environments for running the package on concrete inputs: a file system
    given as a table, a server given as a function, decoders given as tables
    from response text to decoded value. *)

Module Double.

Import Float64.

Fixpoint lookup {A} (table : list (string * A)) (key : string) : option A :=
  match table with
  | [] => None
  | (k, v) :: rest => if (k =? key)%string then Some v else lookup rest key
  end.

Definition notExist (op path : string) : PathError :=
  {| Op := op; Path := path; Cause := "no such file or directory" |}.

Definition stat (files : list (string * string)) (path : string) : PathError + FileInfo :=
  match lookup files path with
  | Some bytes => inr {| Size := GoString.len bytes |}
  | None => inl (notExist "stat" path)
  end.

Definition open (files : list (string * string)) (path : string) : PathError + string :=
  match lookup files path with
  | Some bytes => inr bytes
  | None => inl (notExist "open" path)
  end.

Definition decode {A} (table : list (string * A)) (body : string) : error + A :=
  match lookup table body with
  | Some a => inr a
  | None => inl (ErrDecode "invalid character")
  end.

(** A logarithm that is right on the powers of two, up to rounding:
    [ln 2 * floor (log2 q)]. *)
Definition ln2 : Q := 6931471805599453 # 10000000000000000.

Definition log (x : float64) : float64 :=
  match x with
  | NaN | NInf => NaN
  | PInf => PInf
  | Finite q =>
      if Qzero q then NInf
      else if Qneg q then NaN
      else rnd64 (inject_Z (ilog2 q) * ln2)
  end.

(** A power that is right on integral exponents, up to rounding, and
    gives up elsewhere. *)
Definition pow (x y : float64) : float64 :=
  match y with
  | NaN => NaN
  | Finite b =>
      if Qzero b then Finite 1
      else match x with
           | Finite a =>
               if Qeq_bool b (inject_Z (Qfloor b)) && negb (Qzero a)
               then rnd64 (Qpower a (Qfloor b))
               else NaN
           | _ => NaN
           end
  | _ => NaN
  end.

(** A formatter that is right on integers. *)
Definition format (x : float64) : string :=
  match x with
  | NaN => "NaN"
  | PInf => "+Inf"
  | NInf => "-Inf"
  | Finite q =>
      if Qeq_bool q (inject_Z (Qfloor q))
      then DecimalString.NilZero.string_of_int (Z.to_int (Qfloor q))
      else "?"
  end.

Definition env (files : list (string * string))
               (server : Request -> error + Response)
               (anon : list (string * AnonFilesSuccess))
               (filebin : list (string * FilebinSuccess)) : Env :=
  {| os_Stat := stat files;
     os_Open := open files;
     multipart_boundary := "0123456789abcdef";
     multipart_writeError := None;
     http_requestError := fun _ _ => None;
     http_roundTrip := server;
     json_Unmarshal_AnonFilesSuccess := decode anon;
     json_Unmarshal_FilebinSuccess := decode filebin;
     math_Log := log;
     math_Pow := pow;
     strconv_FormatFloat := format;
     int_of_NaN := minInt64 |}.

(** A server that answers every request with the same body. *)
Definition answers (body : string) : Request -> error + Response :=
  fun _ => inr {| RespBody := inr body |}.

(** A server that cannot be reached. *)
Definition unreachable : Request -> error + Response :=
  fun _ => inl (ErrTransport "connection refused").

End Double.

(** ** Concrete runs

    Files, servers and decoded answers on which the package is run below. *)

Module Run.

Definition imagebinURL : string := "https://imagebin.ca/upload.php".
Definition anonFilesURL : string := "https://api.anonfiles.com/upload".

Definition quoted (s : string) : string := dquote ++ s ++ dquote.

Fixpoint bytes (n : nat) : string :=
  match n with
  | O => EmptyString
  | S n' => String "x"%char (bytes n')
  end.

Definition files : list (string * string) :=
  [ ("report.pdf", "%PDF-1.4");
    ("docs/report.pdf", "%PDF-1.4");
    ("empty.txt", EmptyString);
    ("kilo.bin", bytes 1024) ].

(** [{"status":true}]: the provider reports success and sends no URL. *)
Definition statusOnlyBody : string := "{" ++ quoted "status" ++ ":true}".

Definition statusOnly : AnonFilesSuccess :=
  {| AStatus := true;
     Data := {| File := {| URL := {| Full := EmptyString; Short := EmptyString |} |} |} |}.

(** [{"status":true,"data":{"file":{"url":{"full":"https://anonfiles.com/x",
    "short":"https://afiles.io/x"}}}}] *)
Definition uploadedBody : string :=
  "{" ++ quoted "status" ++ ":true," ++ quoted "data" ++ ":{" ++ quoted "file" ++ ":{"
      ++ quoted "url" ++ ":{" ++ quoted "full" ++ ":" ++ quoted "https://anonfiles.com/x" ++ ","
      ++ quoted "short" ++ ":" ++ quoted "https://afiles.io/x" ++ "}}}}".

Definition uploaded : AnonFilesSuccess :=
  {| AStatus := true;
     Data := {| File := {| URL := {| Full := "https://anonfiles.com/x";
                                     Short := "https://afiles.io/x" |} |} |} |}.

Definition anonTable : list (string * AnonFilesSuccess) :=
  [ (statusOnlyBody, statusOnly); (uploadedBody, uploaded) ].

(** The answers [{}] and [{"links":[{"href":"a"},{"href":second}]}], the
    second href being empty or "b". *)
Definition noLinksBody : string := "{}".

Definition linksBody (second : string) : string :=
  "{" ++ quoted "links" ++ ":[{" ++ quoted "href" ++ ":" ++ quoted "a" ++ "},{"
      ++ quoted "href" ++ ":" ++ quoted second ++ "}]}".

Definition filebinTable : list (string * FilebinSuccess) :=
  [ (noLinksBody, {| Links := [] |});
    (linksBody EmptyString, {| Links := [ {| Href := "a" |}; {| Href := EmptyString |} ] |});
    (linksBody "b", {| Links := [ {| Href := "a" |}; {| Href := "b" |} ] |}) ].

(** The environment in which the server answers [body] to every request. *)
Definition answering (body : string) : Env :=
  Double.env files (Double.answers body) anonTable filebinTable.

(** The environment in which no server can be reached. *)
Definition offline : Env :=
  Double.env files Double.unreachable anonTable filebinTable.

End Run.

(** ** Faults

    Environments that differ from a given one in a single respect. *)

Module Fault.

(** [E], except that writing a part header fails with [err]. *)
Definition writeFails (E : Env) (err : error) : Env :=
  {| os_Stat := os_Stat E;
     os_Open := os_Open E;
     multipart_boundary := multipart_boundary E;
     multipart_writeError := Some err;
     http_requestError := http_requestError E;
     http_roundTrip := http_roundTrip E;
     json_Unmarshal_AnonFilesSuccess := json_Unmarshal_AnonFilesSuccess E;
     json_Unmarshal_FilebinSuccess := json_Unmarshal_FilebinSuccess E;
     math_Log := math_Log E;
     math_Pow := math_Pow E;
     strconv_FormatFloat := strconv_FormatFloat E;
     int_of_NaN := int_of_NaN E |}.


(** A server whose answer breaks off while the body is read. *)
Definition truncated : Request -> error + Response :=
  fun _ => inr {| RespBody := inl (ErrRead "unexpected EOF") |}.

End Fault.

(** * Properties *)

(** ** Strings and [strings.LastIndex] *)

Section StringFacts.

Import GoString.

Lemma drop_nil (n : nat) : drop n EmptyString = EmptyString.
Proof. destruct n; reflexivity. Qed.

Lemma drop_beyond (s : string) : forall n, (String.length s <= n)%nat -> drop n s = EmptyString.
Proof.
  induction s as [|c s IH]; intros n Hn.
  - apply drop_nil.
  - destruct n as [|n]; simpl in *; [lia|]. apply IH. lia.
Qed.

Lemma drop_length (s : string) : forall n, String.length (drop n s) = (String.length s - n)%nat.
Proof.
  induction s as [|c s IH]; intros n.
  - rewrite drop_nil. reflexivity.
  - destruct n as [|n]; simpl; [reflexivity | apply IH].
Qed.

Lemma drop_app (pre s : string) : drop (String.length pre) (pre ++ s) = s.
Proof. induction pre as [|c pre IH]; simpl; auto. Qed.

Lemma substring_all (s : string) : substring 0 (String.length s) s = s.
Proof. induction s as [|c s IH]; simpl; [reflexivity | now rewrite IH]. Qed.

Lemma substring_drop (s : string) :
  forall n, (n <= String.length s)%nat -> substring n (String.length s - n) s = drop n s.
Proof.
  induction s as [|c s IH]; intros n Hn.
  - destruct n; reflexivity.
  - destruct n as [|n].
    + simpl drop. change (String.length (String c s) - 0)%nat with (S (String.length s)).
      simpl. now rewrite substring_all.
    + simpl in *. apply IH. lia.
Qed.

Lemma prefix_length (w : string) : forall s, prefix w s = true -> (String.length w <= String.length s)%nat.
Proof.
  induction w as [|a w IH]; intros s H.
  - simpl. lia.
  - destruct s as [|b s]; simpl in H; [discriminate|].
    destruct (ascii_dec a b); [|discriminate].
    apply IH in H. simpl. lia.
Qed.

Lemma prefix_refl (w : string) : prefix w w = true.
Proof.
  induction w as [|a w IH]; simpl; [reflexivity|].
  destruct (ascii_dec a a); [assumption | congruence].
Qed.

(** The scan returns the accumulator when there is no occurrence, and the
    offset of the last occurrence otherwise. *)
Lemma lastIndexFrom_spec (substr s : string) : forall i acc,
  (lastIndexFrom i s substr acc = acc /\
     forall k, (k <= String.length s)%nat -> prefix substr (drop k s) = false)
  \/ (exists k, (k <= String.length s)%nat /\
        lastIndexFrom i s substr acc = i + Z.of_nat k /\
        prefix substr (drop k s) = true /\
        forall k', (k < k' <= String.length s)%nat -> prefix substr (drop k' s) = false).
Proof.
  induction s as [|c s IH]; intros i acc.
  - cbn [lastIndexFrom]. destruct (prefix substr EmptyString) eqn:Hp.
    + right. exists 0%nat. simpl. repeat split; auto; try lia.
    + left. split; [reflexivity|]. intros k Hk. now rewrite drop_nil.
  - cbn [lastIndexFrom].
    destruct (IH (i + 1) (if prefix substr (String c s) then i else acc))
      as [[Hr Hno] | (k & Hk & Hr & Hp & Hlast)].
    + destruct (prefix substr (String c s)) eqn:Hp.
      * right. exists 0%nat. simpl String.length. repeat split; try lia.
        -- exact Hp.
        -- intros [|k'] Hk'; [lia|]. simpl. apply Hno. lia.
      * left. split; [exact Hr|].
        intros [|k] Hk; [exact Hp|]. simpl in *. apply Hno. lia.
    + right. exists (S k). simpl String.length. repeat split; try lia.
      * exact Hp.
      * intros [|k'] Hk'; [lia|]. simpl. apply Hlast. lia.
Qed.

Lemma LastIndex_cases (s substr : string) :
  (LastIndex s substr = -1 /\ absent substr s) \/ lastOccurrence substr s (LastIndex s substr).
Proof.
  unfold LastIndex.
  destruct (lastIndexFrom_spec substr s 0 (-1)) as [[Hr Hno] | (k & Hk & Hr & Hp & Hlast)].
  - left. split; [exact Hr|]. intros i [[H0 Hi] Hocc].
    rewrite Hno in Hocc; [discriminate|]. unfold len in Hi. lia.
  - right. rewrite Hr. simpl. split.
    + split; [unfold len; lia|]. now rewrite Nat2Z.id.
    + intros j Hj [[H0 Hjl] Hocc]. unfold len in Hjl.
      rewrite Hlast in Hocc; [discriminate|]. lia.
Qed.

Lemma lastOccurrence_unique (word value : string) (p q : Z) :
  lastOccurrence word value p -> lastOccurrence word value q -> p = q.
Proof.
  intros [Hp Hpl] [Hq Hql].
  destruct (Z.lt_trichotomy p q) as [H | [H | H]]; [|exact H|].
  - exfalso. exact (Hpl q H Hq).
  - exfalso. exact (Hql p H Hp).
Qed.

Lemma LastIndex_lastOccurrence (word value : string) (pos : Z) :
  lastOccurrence word value pos -> LastIndex value word = pos.
Proof.
  intros H. destruct (LastIndex_cases value word) as [[_ Habs] | Hl].
  - exfalso. exact (Habs pos (proj1 H)).
  - exact (lastOccurrence_unique _ _ _ _ Hl H).
Qed.

Lemma LastIndex_absent (word value : string) :
  absent word value -> LastIndex value word = -1.
Proof.
  intros H. destruct (LastIndex_cases value word) as [[Hr _] | [Hocc _]].
  - exact Hr.
  - exfalso. exact (H _ Hocc).
Qed.

(** A word at the very end of a text is its last occurrence there. *)
Lemma lastOccurrence_suffix (pre word : string) :
  lastOccurrence word (pre ++ word) (len pre).
Proof.
  assert (Hlen : String.length (pre ++ word) = (String.length pre + String.length word)%nat).
  { induction pre as [|c pre IH]; simpl; auto. }
  split.
  - split.
    + unfold len. rewrite Hlen. lia.
    + unfold len. rewrite Nat2Z.id, drop_app. apply prefix_refl.
  - intros j Hj [[H0 Hjl] Hocc]. unfold len in *.
    apply prefix_length in Hocc. rewrite drop_length, Hlen in Hocc. lia.
Qed.

End StringFacts.

(** ** [getStringAfterWord] *)

Section AfterWord.

Import GoString.

Lemma getStringAfterWord_last (value word : string) (pos : Z) :
  lastOccurrence word value pos ->
  getStringAfterWord value word = Returns (drop (Z.to_nat (pos + len word)) value).
Proof.
  intros Hlast. unfold getStringAfterWord.
  rewrite (LastIndex_lastOccurrence _ _ _ Hlast).
  destruct Hlast as [[[H0 Hle] _] _].
  assert (Hw : 0 <= len word) by (unfold len; lia).
  replace (pos =? -1) with false by (symmetry; apply Z.eqb_neq; lia).
  destruct (pos + len word >=? len value) eqn:Hge.
  - rewrite Z.geb_le in Hge. rewrite drop_beyond; [reflexivity|].
    unfold len in *. lia.
  - rewrite Z.geb_leb, Z.leb_gt in Hge. unfold slice.
    replace ((0 <=? pos + len word) && (pos + len word <=? len value)
             && (len value <=? len value)) with true.
    + f_equal. unfold len in *.
      replace (Z.to_nat (Z.of_nat (String.length value) - (pos + Z.of_nat (String.length word))))
        with (String.length value - Z.to_nat (pos + Z.of_nat (String.length word)))%nat by lia.
      apply substring_drop. lia.
    + symmetry. rewrite !andb_true_iff, !Z.leb_le. lia.
Qed.

Lemma getStringAfterWord_absent (value word : string) :
  absent word value -> getStringAfterWord value word = Returns EmptyString.
Proof.
  intros H. unfold getStringAfterWord.
  now rewrite (LastIndex_absent _ _ H).
Qed.

Lemma getStringAfterWord_suffix (pre word : string) :
  getStringAfterWord (pre ++ word) word = Returns EmptyString.
Proof.
  rewrite (getStringAfterWord_last _ _ _ (lastOccurrence_suffix pre word)).
  rewrite drop_beyond; [reflexivity|].
  assert (Hlen : String.length (pre ++ word) = (String.length pre + String.length word)%nat).
  { induction pre as [|c pre IH]; simpl; auto. }
  unfold len. lia.
Qed.

(** The slice is always within bounds: the function returns on every
    input. *)
Lemma getStringAfterWord_returns (value word : string) :
  exists s, getStringAfterWord value word = Returns s.
Proof.
  destruct (LastIndex_cases value word) as [[_ Habs] | Hl].
  - eexists. now apply getStringAfterWord_absent.
  - eexists. exact (getStringAfterWord_last _ _ _ Hl).
Qed.

End AfterWord.

(** ** The upload entry points *)

Ltac unfold_calls :=
  unfold AnonFilesUpload, BayFilesUpload, uploadFile, ImagebinUpload, FilebinUpload,
         HTTP.Post, HTTP.Do, HTTP.NewRequest, Multipart.CreateFormFile,
         result, trace, bind, ret, emit, lift, exit in *.

Ltac split_calls :=
  repeat match goal with
         | H : context [match ?x with _ => _ end] |- _ => destruct x eqn:?; simpl in H
         | |- context [match ?x with _ => _ end] => destruct x eqn:?; simpl
         end.

Ltac pair_eqs :=
  repeat match goal with
         | H : (_, _) = (_, _) |- _ => inversion H; subst; clear H
         | H : Returns _ = Returns _ |- _ => inversion H; subst; clear H
         end.

Ltac string_tests :=
  repeat match goal with
         | H : negb _ = true |- _ => apply negb_true_iff in H
         | H : negb _ = false |- _ => apply negb_false_iff in H
         | H : (_ =? _)%string = true |- _ => apply String.eqb_eq in H
         | H : (_ =? _)%string = false |- _ => apply String.eqb_neq in H
         end.

Section Uploads.

Variable E : Env.

(** The form that both multipart paths build, and its posting: one
    request, the form of [formRequest], whatever [os.Open] returned. *)
Lemma Post_form (filename destURI : string) :
  http_requestError E "POST" destURI = None ->
  let mw := Multipart.Close
              (Multipart.Copy
                 {| Boundary := Boundary (Multipart.NewWriter (multipart_boundary E));
                    PartsRev := {| FieldName := "file"; FileName := filename;
                                   Content := EmptyString |}
                                :: PartsRev (Multipart.NewWriter (multipart_boundary E));
                    Closed := Closed (Multipart.NewWriter (multipart_boundary E)) |}
                 (os_Open E filename)) in
  HTTP.Post E destURI (Multipart.FormDataContentType mw) (Multipart.buffer mw)
  = ([Sent (formRequest E filename destURI)],
     Returns (http_roundTrip E (formRequest E filename destURI))).
Proof.
  intros Hr mw. unfold HTTP.Post, HTTP.NewRequest. rewrite Hr.
  unfold HTTP.Do, bind, emit, ret, formRequest, mw.
  destruct (os_Open E filename); reflexivity.
Qed.

Lemma uploadFile_run (filename destURI : string) :
  multipart_writeError E = None ->
  http_requestError E "POST" destURI = None ->
  uploadFile E filename destURI
  = ([Sent (formRequest E filename destURI)],
     Returns
       match http_roundTrip E (formRequest E filename destURI) with
       | inl err => (zeroResponse, Some err)
       | inr resp =>
           match RespBody resp with
           | inl err => (zeroResponse, Some err)
           | inr body =>
               match json_Unmarshal_AnonFilesSuccess E body with
               | inl err => (zeroResponse, Some err)
               | inr s => ({| Status := AStatus s;
                              FullURL := Full (URL (File (Data s)));
                              ShortURL := Short (URL (File (Data s))) |}, None)
               end
           end
       end).
Proof.
  intros Hw Hr. unfold uploadFile, Multipart.CreateFormFile. rewrite Hw.
  cbv beta iota zeta. rewrite (Post_form filename destURI Hr).
  unfold bind, ret.
  destruct (http_roundTrip E (formRequest E filename destURI)) as [err|resp]; [reflexivity|].
  destruct (RespBody resp) as [err|body]; [reflexivity|].
  destruct (json_Unmarshal_AnonFilesSuccess E body); reflexivity.
Qed.

Lemma ImagebinUpload_run (filename : string) :
  multipart_writeError E = None ->
  http_requestError E "POST" Run.imagebinURL = None ->
  ImagebinUpload E filename
  = ([Sent (formRequest E filename Run.imagebinURL)],
     match http_roundTrip E (formRequest E filename Run.imagebinURL) with
     | inl err => Returns (zeroResponse, Some err)
     | inr resp =>
         match RespBody resp with
         | inl err => Returns (zeroResponse, Some err)
         | inr body =>
             obind (getStringAfterWord body "url:") (fun url =>
               Returns ({| Status := negb (url =? EmptyString)%string;
                           FullURL := url;
                           ShortURL := EmptyString |}, None))
         end
     end).
Proof.
  intros Hw Hr. unfold ImagebinUpload, Multipart.CreateFormFile. rewrite Hw.
  cbv beta iota zeta. fold Run.imagebinURL. rewrite (Post_form filename _ Hr).
  unfold bind, ret, lift.
  destruct (http_roundTrip E (formRequest E filename Run.imagebinURL)) as [err|resp]; [reflexivity|].
  destruct (RespBody resp) as [err|body]; [reflexivity|].
  destruct (getStringAfterWord body "url:") as [url| |]; try reflexivity.
  simpl. destruct (url =? EmptyString)%string; reflexivity.
Qed.

(** What [FilebinUpload] does once the answer is decoded. *)
Lemma FilebinUpload_decoded (filename bytes : string) (resp : Response) (body : string)
      (s : FilebinSuccess) :
  os_Open E filename = inr bytes ->
  http_requestError E "POST" "https://filebin.net" = None ->
  http_roundTrip E (filebinRequest filename bytes) = inr resp ->
  RespBody resp = inr body ->
  json_Unmarshal_FilebinSuccess E body = inr s ->
  FilebinUpload E filename
  = ([Sent (filebinRequest filename bytes)],
     obind (index (Links s) 1) (fun link =>
       if negb (Href link =? EmptyString)%string
       then Returns ({| Status := true; FullURL := Href link; ShortURL := EmptyString |}, None)
       else Returns (zeroResponse, None))).
Proof.
  intros Ho Hr Hrt Hb Hd. unfold_calls. rewrite Ho, Hr. simpl.
  unfold filebinRequest in *. simpl. unfold HTTP.HeaderSet. simpl. rewrite Hrt. simpl.
  rewrite Hb, Hd. destruct (index (Links s) 1); simpl; try reflexivity.
  destruct (Href a =? EmptyString)%string; reflexivity.
Qed.

End Uploads.

(** ** Results of the upload entry points *)

(** C9.  Whenever an upload entry point ([uploadFile], [AnonFilesUpload],
    [BayFilesUpload], [FilebinUpload], [ImagebinUpload]) returns a non-nil
    error, the response returned with it is the zero value: Status false,
    FullURL and ShortURL empty. *)
Theorem error_result_is_zero (E : Env) (filename destURI : string)
        (r : UniversalResponse) (err : error) :
  result (uploadFile E filename destURI) = Returns (r, Some err) \/
  result (AnonFilesUpload E filename) = Returns (r, Some err) \/
  result (BayFilesUpload E filename) = Returns (r, Some err) \/
  result (FilebinUpload E filename) = Returns (r, Some err) \/
  result (ImagebinUpload E filename) = Returns (r, Some err) ->
  r = {| Status := false; FullURL := EmptyString; ShortURL := EmptyString |}.
Proof.
  intros [H | [H | [H | [H | H]]]]; unfold_calls;
    split_calls; pair_eqs; try discriminate; reflexivity.
Qed.

Lemma error_result_is_zero_witness :
  result (FilebinUpload Run.offline "report.pdf")
  = Returns (zeroResponse, Some (ErrTransport "connection refused"))
  /\ zeroResponse = {| Status := false; FullURL := EmptyString; ShortURL := EmptyString |}.
Proof.
  split; [reflexivity|].
  apply (error_result_is_zero Run.offline "report.pdf" EmptyString zeroResponse
           (ErrTransport "connection refused")).
  right. right. right. left. reflexivity.
Defined.

(** A nil error of [uploadFile] comes with the fields of the answer that
    the server gave to the request sent, read in full and decoded. *)
Lemma uploadFile_success (E : Env) (filename destURI : string) (r : UniversalResponse) :
  result (uploadFile E filename destURI) = Returns (r, None) ->
  exists resp body s,
    http_roundTrip E (formRequest E filename destURI) = inr resp /\
    RespBody resp = inr body /\
    json_Unmarshal_AnonFilesSuccess E body = inr s /\
    Status r = AStatus s /\
    FullURL r = Full (URL (File (Data s))) /\
    ShortURL r = Short (URL (File (Data s))).
Proof.
  intros H.
  destruct (multipart_writeError E) as [err|] eqn:Hw.
  { unfold uploadFile, Multipart.CreateFormFile in H. rewrite Hw in H. discriminate H. }
  destruct (http_requestError E "POST" destURI) as [err|] eqn:Hr.
  { unfold uploadFile, Multipart.CreateFormFile in H. rewrite Hw in H.
    cbv beta iota zeta in H. unfold HTTP.Post, HTTP.NewRequest in H.
    rewrite Hr in H. discriminate H. }
  rewrite (uploadFile_run E filename destURI Hw Hr) in H.
  unfold result in H. cbn [snd] in H.
  destruct (http_roundTrip E (formRequest E filename destURI)) as [err|resp] eqn:Hrt;
    [discriminate H|].
  destruct (RespBody resp) as [err|body] eqn:Hb; [discriminate H|].
  destruct (json_Unmarshal_AnonFilesSuccess E body) as [err|s] eqn:Hd; [discriminate H|].
  injection H as <-. exists resp, body, s. repeat split; assumption.
Qed.

(** C1, amended.  When [FilebinUpload] or [ImagebinUpload] returns with a
    nil error, Status is true if and only if FullURL is not empty.  When
    [AnonFilesUpload] or [BayFilesUpload] returns with a nil error, the
    server answered the form posted to that provider's endpoint, the body of
    the answer was read and decoded, and Status, FullURL and ShortURL are
    the fields [status], [data.file.url.full] and [data.file.url.short] of
    that decoded answer, each copied as it is. *)
Theorem status_on_success (E : Env) (filename : string) (r : UniversalResponse) :
  (result (FilebinUpload E filename) = Returns (r, None) \/
   result (ImagebinUpload E filename) = Returns (r, None) ->
   (Status r = true <-> FullURL r <> EmptyString))
  /\
  (result (AnonFilesUpload E filename) = Returns (r, None) ->
   exists resp body s,
     http_roundTrip E (formRequest E filename "https://api.anonfiles.com/upload") = inr resp /\
     RespBody resp = inr body /\
     json_Unmarshal_AnonFilesSuccess E body = inr s /\
     Status r = AStatus s /\
     FullURL r = Full (URL (File (Data s))) /\
     ShortURL r = Short (URL (File (Data s))))
  /\
  (result (BayFilesUpload E filename) = Returns (r, None) ->
   exists resp body s,
     http_roundTrip E (formRequest E filename "https://api.bayfiles.com/upload") = inr resp /\
     RespBody resp = inr body /\
     json_Unmarshal_AnonFilesSuccess E body = inr s /\
     Status r = AStatus s /\
     FullURL r = Full (URL (File (Data s))) /\
     ShortURL r = Short (URL (File (Data s)))).
Proof.
  split; [|split].
  - intros [H | H]; unfold_calls; split_calls; pair_eqs; try discriminate;
      string_tests; simpl; split; intros Hs;
      try discriminate; try reflexivity; try assumption; try congruence.
  - apply uploadFile_success.
  - apply uploadFile_success.
Qed.

Lemma status_on_success_witness :
  (result (FilebinUpload (Run.answering (Run.linksBody "b")) "report.pdf")
   = Returns ({| Status := true; FullURL := "b"; ShortURL := EmptyString |}, None)
   /\ (Status {| Status := true; FullURL := "b"; ShortURL := EmptyString |} = true
       <-> FullURL {| Status := true; FullURL := "b"; ShortURL := EmptyString |}
           <> EmptyString))
  /\
  (result (AnonFilesUpload (Run.answering Run.uploadedBody) "report.pdf")
   = Returns ({| Status := true; FullURL := "https://anonfiles.com/x";
                 ShortURL := "https://afiles.io/x" |}, None)
   /\ exists resp body s,
        Double.answers Run.uploadedBody
          (formRequest (Run.answering Run.uploadedBody) "report.pdf"
             "https://api.anonfiles.com/upload") = inr resp /\
        RespBody resp = inr body /\
        Double.decode Run.anonTable body = inr s /\
        true = AStatus s /\
        "https://anonfiles.com/x" = Full (URL (File (Data s))) /\
        "https://afiles.io/x" = Short (URL (File (Data s))))
  /\
  (result (BayFilesUpload (Run.answering Run.statusOnlyBody) "report.pdf")
   = Returns ({| Status := true; FullURL := EmptyString; ShortURL := EmptyString |}, None)
   /\ exists resp body s,
        Double.answers Run.statusOnlyBody
          (formRequest (Run.answering Run.statusOnlyBody) "report.pdf"
             "https://api.bayfiles.com/upload") = inr resp /\
        RespBody resp = inr body /\
        Double.decode Run.anonTable body = inr s /\
        true = AStatus s /\
        EmptyString = Full (URL (File (Data s))) /\
        EmptyString = Short (URL (File (Data s)))).
Proof.
  split; [|split].
  - split; [reflexivity|].
    apply (proj1 (status_on_success (Run.answering (Run.linksBody "b")) "report.pdf"
                    {| Status := true; FullURL := "b"; ShortURL := EmptyString |})).
    left. reflexivity.
  - split; [reflexivity|].
    exact (proj1 (proj2 (status_on_success (Run.answering Run.uploadedBody) "report.pdf"
                           {| Status := true; FullURL := "https://anonfiles.com/x";
                              ShortURL := "https://afiles.io/x" |})) eq_refl).
  - split; [reflexivity|].
    exact (proj2 (proj2 (status_on_success (Run.answering Run.statusOnlyBody) "report.pdf"
                           {| Status := true; FullURL := EmptyString;
                              ShortURL := EmptyString |})) eq_refl).
Defined.

(** C1 as stated fails on [AnonFilesUpload]: a provider that answers
    [{"status":true}] makes it return Status true with an empty FullURL and
    a nil error. *)
Lemma status_without_url :
  exists r,
    result (AnonFilesUpload (Run.answering Run.statusOnlyBody) "report.pdf") = Returns (r, None)
    /\ ~ (Status r = true <-> FullURL r <> EmptyString).
Proof.
  exists {| Status := true; FullURL := EmptyString; ShortURL := EmptyString |}.
  split; [reflexivity|].
  simpl. intros [H _]. exact (H eq_refl eq_refl).
Qed.

(** C2, on the code.  When the decoded Filebin answer has fewer than two
    links, [FilebinUpload] does not return an error: reading
    [successResponse.Links[1]] panics. *)
Theorem filebin_short_links_panic (E : Env) (filename bytes : string) (resp : Response)
        (body : string) (s : FilebinSuccess) :
  os_Open E filename = inr bytes ->
  http_requestError E "POST" "https://filebin.net" = None ->
  http_roundTrip E (filebinRequest filename bytes) = inr resp ->
  RespBody resp = inr body ->
  json_Unmarshal_FilebinSuccess E body = inr s ->
  (List.length (Links s) < 2)%nat ->
  result (FilebinUpload E filename) = Panics "index out of range".
Proof.
  intros Ho Hr Hrt Hb Hd Hlen.
  rewrite (FilebinUpload_decoded E filename bytes resp body s Ho Hr Hrt Hb Hd).
  unfold result, index. simpl.
  destruct (Links s) as [|l0 [|l1 rest]]; simpl in *; try reflexivity. lia.
Qed.

Lemma filebin_short_links_panic_witness :
  result (FilebinUpload (Run.answering Run.noLinksBody) "report.pdf")
  = Panics "index out of range".
Proof.
  apply (filebin_short_links_panic (Run.answering Run.noLinksBody) "report.pdf" "%PDF-1.4"
           {| RespBody := inr Run.noLinksBody |} Run.noLinksBody {| Links := [] |});
    try reflexivity.
  simpl. lia.
Defined.

(** C10.  When the decoded Filebin answer has a second link whose href is
    empty, [FilebinUpload] returns Status false, FullURL empty and a nil
    error. *)
Theorem filebin_empty_second_href (E : Env) (filename bytes : string) (resp : Response)
        (body : string) (s : FilebinSuccess) (link : FilebinLink) :
  os_Open E filename = inr bytes ->
  http_requestError E "POST" "https://filebin.net" = None ->
  http_roundTrip E (filebinRequest filename bytes) = inr resp ->
  RespBody resp = inr body ->
  json_Unmarshal_FilebinSuccess E body = inr s ->
  nth_error (Links s) 1 = Some link ->
  Href link = EmptyString ->
  result (FilebinUpload E filename)
  = Returns ({| Status := false; FullURL := EmptyString; ShortURL := EmptyString |}, None).
Proof.
  intros Ho Hr Hrt Hb Hd Hl Hh.
  rewrite (FilebinUpload_decoded E filename bytes resp body s Ho Hr Hrt Hb Hd).
  unfold result, index. cbn [snd].
  change (1 <? 0) with false. change (Z.to_nat 1) with 1%nat. cbv iota.
  rewrite Hl. cbn [obind]. rewrite Hh. reflexivity.
Qed.

Lemma filebin_empty_second_href_witness :
  result (FilebinUpload (Run.answering (Run.linksBody EmptyString)) "report.pdf")
  = Returns ({| Status := false; FullURL := EmptyString; ShortURL := EmptyString |}, None).
Proof.
  apply (filebin_empty_second_href (Run.answering (Run.linksBody EmptyString)) "report.pdf"
           "%PDF-1.4" {| RespBody := inr (Run.linksBody EmptyString) |}
           (Run.linksBody EmptyString)
           {| Links := [ {| Href := "a" |}; {| Href := EmptyString |} ] |}
           {| Href := EmptyString |});
    reflexivity.
Defined.

(** C3, on the code.  When the file cannot be opened, neither multipart
    upload function returns the open error: [uploadFile] and
    [ImagebinUpload] drop it, send the form with an empty file part, and
    return what the server's answer gives, a nil error included. *)
Theorem open_failure_not_reported (E : Env) (filename destURI : string) (e : PathError) :
  os_Open E filename = inl e ->
  multipart_writeError E = None ->
  http_requestError E "POST" destURI = None ->
  http_requestError E "POST" Run.imagebinURL = None ->
  (forall url,
     Body (formRequest E filename url)
     = FormBody (multipart_boundary E)
         [{| FieldName := "file"; FileName := filename; Content := EmptyString |}] true)
  /\ trace (uploadFile E filename destURI) = [Sent (formRequest E filename destURI)]
  /\ trace (ImagebinUpload E filename) = [Sent (formRequest E filename Run.imagebinURL)]
  /\ (forall resp body s,
        http_roundTrip E (formRequest E filename destURI) = inr resp ->
        RespBody resp = inr body ->
        json_Unmarshal_AnonFilesSuccess E body = inr s ->
        exists r, result (uploadFile E filename destURI) = Returns (r, None))
  /\ (forall resp body,
        http_roundTrip E (formRequest E filename Run.imagebinURL) = inr resp ->
        RespBody resp = inr body ->
        exists r, result (ImagebinUpload E filename) = Returns (r, None)).
Proof.
  intros Ho Hw Hr Hi. repeat split.
  - intros url. unfold formRequest. simpl. now rewrite Ho.
  - now rewrite uploadFile_run.
  - now rewrite ImagebinUpload_run.
  - intros resp body s Hrt Hb Hd. rewrite uploadFile_run by assumption.
    unfold result. cbn [snd]. rewrite Hrt, Hb, Hd. eexists. reflexivity.
  - intros resp body Hrt Hb. rewrite ImagebinUpload_run by assumption.
    unfold result. cbn [snd]. rewrite Hrt, Hb.
    destruct (getStringAfterWord_returns body "url:") as [url Hu]. rewrite Hu.
    eexists. reflexivity.
Qed.

Lemma open_failure_not_reported_witness :
  os_Open (Run.answering Run.uploadedBody) "missing.pdf"
  = inl (Double.notExist "open" "missing.pdf")
  /\ result (uploadFile (Run.answering Run.uploadedBody) "missing.pdf" Run.anonFilesURL)
     = Returns ({| Status := true; FullURL := "https://anonfiles.com/x";
                   ShortURL := "https://afiles.io/x" |}, None)
  /\ trace (uploadFile (Run.answering Run.uploadedBody) "missing.pdf" Run.anonFilesURL)
     = [Sent (formRequest (Run.answering Run.uploadedBody) "missing.pdf" Run.anonFilesURL)].
Proof.
  split; [reflexivity|]. split; [reflexivity|].
  apply (open_failure_not_reported (Run.answering Run.uploadedBody) "missing.pdf"
           Run.anonFilesURL (Double.notExist "open" "missing.pdf"));
    reflexivity.
Defined.

(** C6, on the code.  The multipart paths send one POST request with the
    multipart content type and a single part in the field "file", filled
    with the bytes read from the file; the part is named by the string the
    caller passed, directories included, not by its base name. *)
Theorem form_part_named_by_argument (E : Env) (filename destURI : string) :
  multipart_writeError E = None ->
  http_requestError E "POST" destURI = None ->
  http_requestError E "POST" Run.imagebinURL = None ->
  trace (uploadFile E filename destURI)
  = [Sent {| Method := "POST";
             Target := destURI;
             Header := [("Content-Type",
                         "multipart/form-data; boundary=" ++ multipart_boundary E)];
             Body := FormBody (multipart_boundary E)
                       [{| FieldName := "file";
                           FileName := filename;
                           Content := match os_Open E filename with
                                      | inr bytes => bytes
                                      | inl _ => EmptyString
                                      end |}]
                       true |}]
  /\ trace (ImagebinUpload E filename) = [Sent (formRequest E filename Run.imagebinURL)].
Proof.
  intros Hw Hr Hi. split.
  - now rewrite uploadFile_run.
  - now rewrite ImagebinUpload_run.
Qed.

Lemma form_part_named_by_argument_witness :
  trace (uploadFile (Run.answering Run.uploadedBody) "docs/report.pdf" Run.anonFilesURL)
  = [Sent {| Method := "POST";
             Target := Run.anonFilesURL;
             Header := [("Content-Type", "multipart/form-data; boundary=0123456789abcdef")];
             Body := FormBody "0123456789abcdef"
                       [{| FieldName := "file";
                           FileName := "docs/report.pdf";
                           Content := "%PDF-1.4" |}]
                       true |}]
  /\ Filepath.Base "docs/report.pdf" = "report.pdf".
Proof.
  split; [|reflexivity].
  apply (proj1 (form_part_named_by_argument (Run.answering Run.uploadedBody)
                  "docs/report.pdf" Run.anonFilesURL eq_refl eq_refl eq_refl)).
Defined.

(** C4.  On every response text the extraction returns (no bounds fault);
    it returns the text after the last occurrence of "url:"; when the marker
    is absent or ends the text it returns the empty string, and
    [ImagebinUpload] then returns Status false, FullURL empty and a nil
    error. *)
Theorem marker_extraction (body : string) :
  (exists url, getStringAfterWord body "url:" = Returns url)
  /\ (forall pos, lastOccurrence "url:" body pos ->
        getStringAfterWord body "url:" = Returns (GoString.drop (Z.to_nat (pos + 4)) body))
  /\ (absent "url:" body \/ (exists pre, body = pre ++ "url:") ->
        getStringAfterWord body "url:" = Returns EmptyString
        /\ forall E filename resp,
             multipart_writeError E = None ->
             http_requestError E "POST" "https://imagebin.ca/upload.php" = None ->
             http_roundTrip E (formRequest E filename "https://imagebin.ca/upload.php") = inr resp ->
             RespBody resp = inr body ->
             result (ImagebinUpload E filename)
             = Returns ({| Status := false; FullURL := EmptyString;
                           ShortURL := EmptyString |}, None)).
Proof.
  split; [apply getStringAfterWord_returns|].
  split; [intros pos H; exact (getStringAfterWord_last body "url:" pos H)|].
  intros H.
  assert (Hu : getStringAfterWord body "url:" = Returns EmptyString).
  { destruct H as [H | [pre ->]].
    - now apply getStringAfterWord_absent.
    - apply getStringAfterWord_suffix. }
  split; [exact Hu|].
  intros E filename resp Hw Hr Hrt Hb.
  rewrite ImagebinUpload_run by assumption.
  unfold result, Run.imagebinURL. cbn [snd]. rewrite Hrt, Hb, Hu. reflexivity.
Qed.

Lemma marker_extraction_witness :
  getStringAfterWord "...foo url:http://x url:http://y" "url:" = Returns "http://y"
  /\ result (ImagebinUpload (Run.answering "upload accepted url:") "report.pdf")
     = Returns ({| Status := false; FullURL := EmptyString; ShortURL := EmptyString |}, None).
Proof.
  split.
  - assert (Hlast : lastOccurrence "url:" "...foo url:http://x url:http://y" 20).
    { destruct (LastIndex_cases "...foo url:http://x url:http://y" "url:") as [[H _] | H].
      - vm_compute in H. discriminate H.
      - exact H. }
    exact (proj1 (proj2 (marker_extraction "...foo url:http://x url:http://y")) 20 Hlast).
  - apply (proj2 (proj2 (proj2 (marker_extraction "upload accepted url:"))
                   (or_intror (ex_intro _ "upload accepted " eq_refl)))
             (Run.answering "upload accepted url:") "report.pdf"
             {| RespBody := inr "upload accepted url:" |});
      reflexivity.
Defined.

(** ** Rounding *)

Section RoundingFacts.

Import Float64.
Local Open Scope Q_scope.

Lemma Qfloor_unique (x : Q) (z : Z) :
  inject_Z z <= x -> x < inject_Z (z + 1) -> Qfloor x = z.
Proof.
  intros Hle Hlt. apply Z.le_antisymm.
  - apply Z.lt_succ_r. rewrite Zlt_Qlt.
    apply Qle_lt_trans with x; [apply Qfloor_le | exact Hlt].
  - rewrite <- (Qfloor_Z z). now apply Qfloor_resp_le.
Qed.

Lemma Qceiling_unique (x : Q) (z : Z) :
  inject_Z (z - 1) < x -> x <= inject_Z z -> Qceiling x = z.
Proof.
  intros Hlt Hle. apply Z.le_antisymm.
  - rewrite <- (Qceiling_Z z). now apply Qceiling_resp_le.
  - apply Z.lt_pred_le. rewrite Zlt_Qlt. unfold Z.pred.
    apply Qlt_le_trans with x; [exact Hlt | apply Qle_ceiling].
Qed.

Lemma Qneg_nonneg (q : Q) : 0 <= q -> Qneg q = false.
Proof.
  unfold Qneg, Qle. simpl. intros H. apply Z.ltb_ge. lia.
Qed.

Lemma Qzero_pos (q : Q) : 0 < q -> Qzero q = false.
Proof.
  unfold Qzero, Qlt. simpl. intros H. apply Z.eqb_neq. lia.
Qed.

(** The fractional part reaches one half exactly when rounding half-up
    moves to the next integer. *)
Lemma half_up_selects (d : Q) :
  0 <= d ->
  (if Qle_bool (1 # 2) (Qred (d - inject_Z (Qfloor d))) then Qceiling d else Qfloor d)
  = Qfloor (d + (1 # 2)).
Proof.
  intros Hd.
  pose proof (Qfloor_le d) as Hlo. pose proof (Qlt_floor d) as Hhi.
  rewrite inject_Z_plus in Hhi. change (inject_Z 1) with 1 in Hhi.
  destruct (Qle_bool (1 # 2) (Qred (d - inject_Z (Qfloor d)))) eqn:Hc.
  - apply Qle_bool_iff in Hc. rewrite Qred_correct in Hc.
    assert (Hceil : Qceiling d = (Qfloor d + 1)%Z).
    { apply Qceiling_unique.
      - replace (Qfloor d + 1 - 1)%Z with (Qfloor d) by lia. lra.
      - rewrite inject_Z_plus. change (inject_Z 1) with 1. lra. }
    rewrite Hceil. symmetry.
    apply Qfloor_unique; rewrite !inject_Z_plus; change (inject_Z 1) with 1; lra.
  - assert (Hlt : ~ (1 # 2) <= Qred (d - inject_Z (Qfloor d))).
    { intros H. apply Qle_bool_iff in H. congruence. }
    rewrite Qred_correct in Hlt. symmetry.
    apply Qfloor_unique; rewrite ?inject_Z_plus; change (inject_Z 1) with 1; lra.
Qed.

Lemma roundHalfEven_nonneg (x : Q) : 0 <= x -> (0 <= roundHalfEven x)%Z.
Proof.
  intros Hx. unfold roundHalfEven.
  assert (H0 : (0 <= Qfloor x)%Z).
  { change 0%Z with (Qfloor 0). now apply Qfloor_resp_le. }
  destruct (Qcompare _ _); [destruct (Z.even _)| |]; lia.
Qed.

Lemma pow2_pos (e : Z) : 0 < pow2 e.
Proof. apply Qpower_0_lt. reflexivity. Qed.

Lemma rndMagnitude_nonneg (a : Q) : 0 <= a -> 0 <= rndMagnitude a.
Proof.
  intros Ha. unfold rndMagnitude. cbv zeta.
  apply Qmult_le_0_compat; [|apply Qlt_le_weak, pow2_pos].
  change 0 with (inject_Z 0). rewrite <- Zle_Qle.
  apply roundHalfEven_nonneg. apply Qle_shift_div_l; [apply pow2_pos|].
  now rewrite Qmult_0_l.
Qed.

Lemma Finite_inj (a b : Q) : Finite a = Finite b -> a = b.
Proof. congruence. Qed.

Lemma Qred_nonneg (q : Q) : 0 <= q -> 0 <= Qred q.
Proof. intros H. now rewrite Qred_correct. Qed.

(** Rounding keeps the sign. *)
Lemma rnd64_nonneg (q d : Q) : 0 <= q -> rnd64 q = Finite d -> 0 <= d.
Proof.
  intros Hq. unfold rnd64. cbv zeta.
  pose proof (Qred_nonneg q Hq) as Hr.
  destruct (Qzero (Qred q)).
  - intros H. apply Finite_inj in H. rewrite <- H. apply Qle_refl.
  - destruct (Qle_bool _ _).
    + unfold inf. destruct (Qneg _); discriminate.
    + rewrite (Qneg_nonneg _ Hr). intros H. apply Finite_inj in H. rewrite <- H.
      apply Qred_nonneg, rndMagnitude_nonneg, Qabs_nonneg.
Qed.

(** Rounding depends on the number, not on the fraction that writes it. *)
Lemma rnd64_Qeq (a b : Q) : a == b -> rnd64 a = rnd64 b.
Proof. intros H. unfold rnd64. now rewrite (Qred_complete a b H). Qed.

End RoundingFacts.

(** ** [round] *)

(** C7, amended.  For every non-negative value [v] and place count, with
    threshold 0.5 and a scaling that stays finite, [round] returns the
    scaled value rounded half-up to an integer, i.e. [floor (d + 1/2)],
    divided by the scale; when the scale is [10^places] and the scaling is
    exact, that is the float64 nearest to [v] rounded half-up at [places]
    decimal places. *)
Theorem round_half_up_nonnegative (E : Env) (v : Q) (places : Z) (pw d : Q) :
  (0 <= v)%Q ->
  math_Pow E (Float64.Finite (10 # 1)) (Float64.ofInt places) = Float64.Finite pw ->
  (0 < pw)%Q ->
  Float64.fmul (Float64.Finite pw) (Float64.Finite v) = Float64.Finite d ->
  round E (Float64.Finite v) (Float64.Finite (1 # 2)) places
  = Float64.rnd64 (inject_Z (Qfloor (d + (1 # 2))) / pw)
  /\ (pw == Qpower (10 # 1) places -> d == v * pw ->
      round E (Float64.Finite v) (Float64.Finite (1 # 2)) places
      = Float64.rnd64 (spec_roundHalfUp v places))%Q.
Proof.
  intros Hv Hpow Hpw Hmul.
  assert (Hd : (0 <= d)%Q).
  { apply (rnd64_nonneg (pw * v) d); [|exact Hmul].
    apply Qmult_le_0_compat; [now apply Qlt_le_weak | exact Hv]. }
  assert (Hround : round E (Float64.Finite v) (Float64.Finite (1 # 2)) places
                   = Float64.rnd64 (inject_Z (Qfloor (d + (1 # 2))) / pw)).
  { unfold round. rewrite Hpow, Hmul. unfold Float64.Modf, Float64.Qtrunc.
    rewrite (Qneg_nonneg d Hd). unfold Float64.fge.
    rewrite <- (half_up_selects d Hd).
    destruct (Qle_bool _ _); unfold Float64.Ceil, Float64.Floor, Float64.fdiv;
      rewrite (Qzero_pos pw Hpw); reflexivity. }
  split; [exact Hround|].
  intros Hexact Hscaled. rewrite Hround. apply rnd64_Qeq.
  unfold spec_roundHalfUp.
  assert (Hfloor : Qfloor (d + (1 # 2)) = Qfloor (v * Qpower (10 # 1) places + (1 # 2))).
  { apply Qfloor_comp. apply Qplus_comp; [|reflexivity].
    apply (Qeq_trans _ _ _ Hscaled). apply Qmult_comp; [reflexivity | exact Hexact]. }
  rewrite Hfloor. apply Qdiv_comp; [reflexivity | exact Hexact].
Qed.

Lemma round_half_up_nonnegative_witness :
  round Run.offline (Float64.Finite (9 # 8)) (Float64.Finite (1 # 2)) 2
  = Float64.rnd64 (spec_roundHalfUp (9 # 8) 2)
  /\ Float64.rnd64 (spec_roundHalfUp (9 # 8) 2)
     = Float64.Finite (1272266894732165 # 1125899906842624).
Proof.
  split; [|vm_compute; reflexivity].
  apply (proj2 (round_half_up_nonnegative Run.offline (9 # 8) 2 (100 # 1) (225 # 2)
                  ltac:(discriminate) ltac:(vm_compute; reflexivity)
                  ltac:(reflexivity) ltac:(vm_compute; reflexivity)));
    reflexivity.
Defined.

(** The test doubles respect the special cases of package [math]. *)
Lemma Double_math files server anon filebin :
  MathSpecialCases (Double.env files server anon filebin).
Proof.
  constructor; simpl.
  - reflexivity.
  - eexists. split; [vm_compute; reflexivity | reflexivity].
  - intros x. reflexivity.
Qed.

(** Below zero [round] takes the floor of every scaled value that is not an
    integer, whatever the library's [Pow] does away from its special cases. *)
Lemma round_negative_floor (E : Env) :
  MathSpecialCases E ->
  round E (Float64.Finite (-9 # 4)) (Float64.Finite (1 # 2)) 0 = Float64.Finite (-3 # 1).
Proof.
  intros [_ _ Hpow]. unfold round.
  change (Float64.ofInt 0) with (Float64.Finite 0). rewrite Hpow.
  vm_compute. reflexivity.
Qed.

(** C7 as stated fails below zero: -2.25 at zero places is scaled to -2.25,
    whose fractional part -0.25 is under the threshold, so [round] takes the
    floor, -3; round-half-up gives -2.  Every number involved is a float64
    and every operation exact. *)
Lemma round_negative_not_half_up :
  round Run.offline (Float64.Finite (-9 # 4)) (Float64.Finite (1 # 2)) 0
  = Float64.Finite (-3 # 1)
  /\ Float64.rnd64 (spec_roundHalfUp (-9 # 4) 0) = Float64.Finite (-2 # 1)
  /\ round Run.offline (Float64.Finite (-9 # 4)) (Float64.Finite (1 # 2)) 0
     <> Float64.rnd64 (spec_roundHalfUp (-9 # 4) 0).
Proof.
  pose proof (round_negative_floor Run.offline (Double_math _ _ _ _)) as H.
  split; [exact H|]. split; [vm_compute; reflexivity|].
  rewrite H. vm_compute. discriminate.
Qed.

(** ** [prettySize] and [CheckFile] *)

Lemma CheckFile_stat_error (E : Env) (filename : string) (e : PathError) :
  os_Stat E filename = inl e ->
  CheckFile E filename
  = ([Stderr ("particeps: error: could not find file " ++ dquote ++ filename ++ dquote ++ newline)],
     Returns (EmptyString, Some (ErrPath e))).
Proof. intros H. unfold CheckFile. rewrite H. reflexivity. Qed.

Lemma prettySize_of_zero (E : Env) :
  MathSpecialCases E -> prettySize E (Float64.Finite 0) = Panics "index out of range".
Proof.
  intros [Hzero (l & Hl & Hpos) _]. unfold prettySize.
  rewrite Hzero, Hl. unfold Float64.fdiv.
  rewrite (Qneg_nonneg l (Qlt_le_weak _ _ Hpos)). reflexivity.
Qed.


(** C5, on the code.  At the byte count 0 the size formatter returns no
    string: [Log(0)] is -Inf, so is the base-1024 logarithm, and its floor
    converted to an [int] is below the unit table; indexing the table
    panics. *)
Theorem prettySize_zero_panics (E : Env) :
  MathSpecialCases E ->
  prettySize E (Float64.ofInt 0) = Panics "index out of range".
Proof. intros H. exact (prettySize_of_zero E H). Qed.

Lemma prettySize_zero_panics_witness :
  prettySize Run.offline (Float64.ofInt 0) = Panics "index out of range".
Proof.
  apply (prettySize_zero_panics Run.offline). apply Double_math.
Defined.

(** C8, on the code.  For the path of an existing empty file [CheckFile]
    returns neither a size string nor an error: the call panics inside
    [prettySize]. *)
Theorem CheckFile_empty_file_panics (E : Env) (filename : string) (info : FileInfo) :
  MathSpecialCases E ->
  os_Stat E filename = inr info ->
  Size info = 0 ->
  result (CheckFile E filename) = Panics "index out of range".
Proof.
  intros Hm Hs H0. unfold CheckFile. rewrite Hs, H0.
  change (Float64.ofInt 0) with (Float64.Finite 0).
  rewrite (prettySize_of_zero E Hm). reflexivity.
Qed.

Lemma CheckFile_empty_file_panics_witness :
  os_Stat Run.offline "empty.txt" = inr {| Size := 0 |}
  /\ result (CheckFile Run.offline "empty.txt") = Panics "index out of range".
Proof.
  split; [reflexivity|].
  apply (CheckFile_empty_file_panics Run.offline "empty.txt" {| Size := 0 |});
    [apply Double_math | reflexivity | reflexivity].
Defined.

(** ** Runs against a stubbed transport *)

Example imagebin_upload_run :
  result (ImagebinUpload (Run.answering "...url:https://imagebin.ca/abc123") "report.pdf")
  = Returns ({| Status := true; FullURL := "https://imagebin.ca/abc123";
                ShortURL := EmptyString |}, None).
Proof. reflexivity. Qed.

Example anonfiles_upload_run :
  result (AnonFilesUpload (Run.answering Run.uploadedBody) "report.pdf")
  = Returns ({| Status := true; FullURL := "https://anonfiles.com/x";
                ShortURL := "https://afiles.io/x" |}, None).
Proof. reflexivity. Qed.

Example filebin_upload_run :
  FilebinUpload (Run.answering (Run.linksBody "b")) "docs/report.pdf"
  = ([Sent (filebinRequest "docs/report.pdf" "%PDF-1.4")],
     Returns ({| Status := true; FullURL := "b"; ShortURL := EmptyString |}, None))
  /\ Header (filebinRequest "docs/report.pdf" "%PDF-1.4")
     = [("Filename", "report.pdf"); ("Content-Type", "application/x-www-form-urlencoded")].
Proof. split; reflexivity. Qed.

Example filebin_missing_file_run :
  FilebinUpload (Run.answering (Run.linksBody "b")) "missing.pdf"
  = ([], Returns (zeroResponse, Some (ErrPath (Double.notExist "open" "missing.pdf")))).
Proof. reflexivity. Qed.

Example marker_last_occurrence_run :
  getStringAfterWord "...foo url:http://x url:http://y" "url:" = Returns "http://y"
  /\ getStringAfterWord "no marker" "url:" = Returns EmptyString
  /\ getStringAfterWord "ends in url:" "url:" = Returns EmptyString.
Proof. repeat split; reflexivity. Qed.

Example round_exact_runs :
  round Run.offline (Float64.Finite (5 # 2)) (Float64.Finite (1 # 2)) 0 = Float64.Finite (3 # 1)
  /\ round Run.offline (Float64.Finite (1 # 2)) (Float64.Finite (1 # 2)) 0 = Float64.Finite (1 # 1)
  /\ round Run.offline (Float64.Finite (9 # 8)) (Float64.Finite (1 # 2)) 2
     = Float64.rnd64 (113 # 100).
Proof. repeat split; vm_compute; reflexivity. Qed.

Example CheckFile_kilobyte_run :
  result (CheckFile Run.offline "kilo.bin") = Returns ("1 KB", None).
Proof. vm_compute. reflexivity. Qed.

Example CheckFile_missing_run :
  result (CheckFile Run.offline "missing.pdf")
  = Returns (EmptyString, Some (ErrPath (Double.notExist "stat" "missing.pdf"))).
Proof. reflexivity. Qed.

(** * Further properties of the package *)

(** ** More on strings *)

Section MoreStringFacts.

Import GoString.

Lemma take_drop (s : string) : forall n, (substring 0 n s ++ drop n s)%string = s.
Proof.
  induction s as [|c s IH]; intros [|n]; simpl; try reflexivity.
  now rewrite IH.
Qed.

Lemma drop_drop (s : string) : forall b a, drop a (drop b s) = drop (b + a) s.
Proof.
  induction s as [|c s IH]; intros b a.
  - now rewrite !drop_nil.
  - destruct b as [|b]; simpl; [reflexivity | apply IH].
Qed.

Lemma drop_app_more (pre s : string) (k : nat) :
  drop (String.length pre + k) (pre ++ s) = drop k s.
Proof. induction pre as [|c pre IH]; simpl; auto. Qed.

Lemma string_length_app (a b : string) :
  String.length (a ++ b) = (String.length a + String.length b)%nat.
Proof. induction a as [|c a IH]; simpl; auto. Qed.

Lemma prefix_split (w : string) : forall x,
  prefix w x = true -> x = (w ++ drop (String.length w) x)%string.
Proof.
  induction w as [|a w IH]; intros x H.
  - reflexivity.
  - destruct x as [|b x]; simpl in H; [discriminate|].
    destruct (ascii_dec a b) as [->|]; [|discriminate].
    simpl. f_equal. now apply IH.
Qed.

Lemma prefix_app (w x : string) : prefix w (w ++ x) = true.
Proof.
  induction w as [|a w IH]; simpl.
  - destruct x; reflexivity.
  - destruct (ascii_dec a a); [assumption | congruence].
Qed.

Lemma prefix_empty (x : string) : prefix EmptyString x = true.
Proof. destruct x; reflexivity. Qed.

(** The shape of a text around the last occurrence of a word. *)
Lemma lastOccurrence_split (word value : string) (pos : Z) :
  lastOccurrence word value pos ->
  value = (substring 0 (Z.to_nat pos) value ++ word
             ++ drop (Z.to_nat (pos + len word)) value)%string.
Proof.
  intros [[[H0 _] Hp] _].
  rewrite <- (take_drop value (Z.to_nat pos)) at 1. f_equal.
  unfold len. replace (Z.to_nat (pos + Z.of_nat (String.length word)))
    with (Z.to_nat pos + String.length word)%nat by lia.
  rewrite <- drop_drop. now apply prefix_split.
Qed.

(** An empty word occurs at the end of every text, and only there last. *)
Lemma lastOccurrence_nonempty_rest (word value : string) (pos : Z) :
  lastOccurrence word value pos ->
  pos + len word < len value ->
  word <> EmptyString.
Proof.
  intros [_ Hlast] Hlt ->. unfold len in *. simpl in Hlt.
  apply (Hlast (Z.of_nat (String.length value))); [lia|].
  unfold occursAt, len. split; [lia|]. apply prefix_empty.
Qed.

End MoreStringFacts.

(** ** More on [getStringAfterWord] *)

(** An empty result means that the word is absent or ends the text. *)
Lemma getStringAfterWord_empty_inv (value word : string) :
  getStringAfterWord value word = Returns EmptyString ->
  absent word value \/ exists pre, value = (pre ++ word)%string.
Proof.
  intros Hres.
  destruct (LastIndex_cases value word) as [[_ Habs] | Hl]; [now left|].
  right. exists (substring 0 (Z.to_nat (GoString.LastIndex value word)) value).
  pose proof (lastOccurrence_split _ _ _ Hl) as Hsplit.
  rewrite (getStringAfterWord_last _ _ _ Hl) in Hres.
  injection Hres as Hres. rewrite Hres in Hsplit.
  rewrite Hsplit at 1. f_equal.
  clear. induction word as [|c w IH]; simpl; [reflexivity | now rewrite IH].
Qed.

(** A non-empty result follows the word and is free of it. *)
Lemma getStringAfterWord_rest (value word rest : string) :
  getStringAfterWord value word = Returns rest ->
  rest <> EmptyString ->
  (exists pre, value = (pre ++ word ++ rest)%string) /\ absent word rest.
Proof.
  intros Hres Hne.
  destruct (LastIndex_cases value word) as [[_ Habs] | Hl].
  { rewrite (getStringAfterWord_absent _ _ Habs) in Hres. congruence. }
  pose proof (lastOccurrence_split _ _ _ Hl) as Hsplit.
  rewrite (getStringAfterWord_last _ _ _ Hl) in Hres. injection Hres as Hres.
  set (pos := GoString.LastIndex value word) in *.
  split.
  - eexists. rewrite Hres in Hsplit. exact Hsplit.
  - assert (Hpos : 0 <= pos) by (destruct Hl as [[[H _] _] _]; exact H).
    assert (Hlen : String.length rest
                   = (String.length value - Z.to_nat (pos + GoString.len word))%nat).
    { rewrite <- Hres. apply drop_length. }
    assert (Hrest : (0 < String.length rest)%nat).
    { destruct rest; [congruence | simpl; lia]. }
    assert (Hw : word <> EmptyString).
    { apply (lastOccurrence_nonempty_rest word value pos Hl). unfold GoString.len in *. lia. }
    assert (Hwl : (0 < String.length word)%nat).
    { destruct word; [congruence | simpl; lia]. }
    intros i [[Hi0 Hil] Hocc]. destruct Hl as [_ Hlast].
    apply (Hlast (pos + GoString.len word + i)); [unfold GoString.len; lia|].
    unfold GoString.occursAt, GoString.len in *. split; [lia|].
    replace (Z.to_nat (pos + Z.of_nat (String.length word) + i))
      with (Z.to_nat (pos + Z.of_nat (String.length word)) + Z.to_nat i)%nat by lia.
    rewrite <- drop_drop, Hres. exact Hocc.
Qed.

(** X1.  [getStringAfterWord] returns the empty string exactly when the word
    does not occur in the text or the text ends with the word. *)
Theorem getStringAfterWord_empty_iff (value word : string) :
  getStringAfterWord value word = Returns EmptyString
  <-> absent word value \/ exists pre, value = (pre ++ word)%string.
Proof.
  split.
  - apply getStringAfterWord_empty_inv.
  - intros [H | [pre ->]].
    + now apply getStringAfterWord_absent.
    + apply getStringAfterWord_suffix.
Qed.

(** X2.  A non-empty result of [getStringAfterWord] is what follows the word
    in the text, and the word does not occur in it again. *)
Theorem getStringAfterWord_follows_word (value word rest : string) :
  getStringAfterWord value word = Returns rest ->
  rest <> EmptyString ->
  (exists pre, value = (pre ++ word ++ rest)%string) /\ absent word rest.
Proof. exact (getStringAfterWord_rest value word rest). Qed.

Lemma getStringAfterWord_follows_word_witness :
  (exists pre, "see url:http://x" = (pre ++ "url:" ++ "http://x")%string)
  /\ absent "url:" "http://x".
Proof.
  apply (getStringAfterWord_follows_word "see url:http://x" "url:" "http://x");
    [reflexivity | discriminate].
Defined.

(** X3.  Whatever precedes the marker "url:" and whatever follows it, the
    extraction gives back the text that follows, provided the marker does not
    occur in that text. *)
Theorem marker_then_url (pre url : string) :
  absent "url:" url ->
  getStringAfterWord (pre ++ "url:" ++ url) "url:" = Returns url.
Proof.
  intros Habs.
  assert (Hl : lastOccurrence "url:" (pre ++ "url:" ++ url) (GoString.len pre)).
  { split.
    - split.
      + unfold GoString.len. rewrite string_length_app. lia.
      + unfold GoString.len. rewrite Nat2Z.id, drop_app. apply prefix_app.
    - intros j Hj [[_ Hjl] Hocc]. unfold GoString.len in *.
      rewrite string_length_app, string_length_app in Hjl. simpl in Hjl.
      replace (Z.to_nat j) with (String.length pre + (Z.to_nat j - String.length pre))%nat
        in Hocc by lia.
      rewrite drop_app_more in Hocc.
      destruct (Z.to_nat j - String.length pre)%nat as [|[|[|[|k]]]] eqn:Hk;
        [lia | simpl in Hocc; discriminate Hocc | simpl in Hocc; discriminate Hocc
         | simpl in Hocc; discriminate Hocc |].
      apply (Habs (Z.of_nat k)). unfold GoString.occursAt, GoString.len. split.
      + lia.
      + rewrite Nat2Z.id. exact Hocc. }
  rewrite (getStringAfterWord_last _ _ _ Hl). f_equal.
  unfold GoString.len. simpl String.length.
  replace (Z.to_nat (Z.of_nat (String.length pre) + Z.of_nat 4))
    with (String.length pre + 4)%nat by lia.
  now rewrite drop_app_more.
Qed.

Lemma marker_then_url_witness :
  absent "url:" "https://imagebin.ca/abc123"
  /\ getStringAfterWord ("<html>status:ok " ++ "url:" ++ "https://imagebin.ca/abc123") "url:"
     = Returns "https://imagebin.ca/abc123".
Proof.
  assert (Habs : absent "url:" "https://imagebin.ca/abc123").
  { destruct (LastIndex_cases "https://imagebin.ca/abc123" "url:") as [[_ H] | [[[H _] _] _]].
    - exact H.
    - exfalso. vm_compute in H. apply H. reflexivity. }
  split; [exact Habs|].
  exact (marker_then_url "<html>status:ok " "https://imagebin.ca/abc123" Habs).
Defined.

(** ** More on the upload entry points *)

Section MoreUploads.

Variable E : Env.

(** [uploadFile], path by path. *)
Lemma uploadFile_cases (filename destURI : string) :
  uploadFile E filename destURI
  = match multipart_writeError E with
    | Some err => ([LogFatal err], Exits 1)
    | None =>
        match http_requestError E "POST" destURI with
        | Some err => ([], Returns (zeroResponse, Some err))
        | None =>
            ([Sent (formRequest E filename destURI)],
             Returns
               match http_roundTrip E (formRequest E filename destURI) with
               | inl err => (zeroResponse, Some err)
               | inr resp =>
                   match RespBody resp with
                   | inl err => (zeroResponse, Some err)
                   | inr body =>
                       match json_Unmarshal_AnonFilesSuccess E body with
                       | inl err => (zeroResponse, Some err)
                       | inr s => ({| Status := AStatus s;
                                      FullURL := Full (URL (File (Data s)));
                                      ShortURL := Short (URL (File (Data s))) |}, None)
                       end
                   end
               end)
        end
    end.
Proof.
  destruct (multipart_writeError E) as [err|] eqn:Hw.
  - unfold uploadFile, Multipart.CreateFormFile. rewrite Hw. reflexivity.
  - destruct (http_requestError E "POST" destURI) as [err|] eqn:Hr.
    + unfold uploadFile, Multipart.CreateFormFile. rewrite Hw. cbv beta iota zeta.
      unfold HTTP.Post, HTTP.NewRequest. rewrite Hr. reflexivity.
    + now apply uploadFile_run.
Qed.

(** [ImagebinUpload], path by path. *)
Lemma ImagebinUpload_cases (filename : string) :
  ImagebinUpload E filename
  = match multipart_writeError E with
    | Some err => ([], Returns (zeroResponse, Some err))
    | None =>
        match http_requestError E "POST" Run.imagebinURL with
        | Some err => ([], Returns (zeroResponse, Some err))
        | None =>
            ([Sent (formRequest E filename Run.imagebinURL)],
             match http_roundTrip E (formRequest E filename Run.imagebinURL) with
             | inl err => Returns (zeroResponse, Some err)
             | inr resp =>
                 match RespBody resp with
                 | inl err => Returns (zeroResponse, Some err)
                 | inr body =>
                     obind (getStringAfterWord body "url:") (fun url =>
                       Returns ({| Status := negb (url =? EmptyString)%string;
                                   FullURL := url;
                                   ShortURL := EmptyString |}, None))
                 end
             end)
        end
    end.
Proof.
  destruct (multipart_writeError E) as [err|] eqn:Hw.
  - unfold ImagebinUpload, Multipart.CreateFormFile. rewrite Hw. reflexivity.
  - destruct (http_requestError E "POST" Run.imagebinURL) as [err|] eqn:Hr.
    + unfold ImagebinUpload, Multipart.CreateFormFile. rewrite Hw. cbv beta iota zeta.
      unfold HTTP.Post, HTTP.NewRequest. fold Run.imagebinURL. rewrite Hr. reflexivity.
    + now apply ImagebinUpload_run.
Qed.

(** [FilebinUpload], path by path. *)
Lemma FilebinUpload_cases (filename : string) :
  FilebinUpload E filename
  = match os_Open E filename with
    | inl err => ([], Returns (zeroResponse, Some (ErrPath err)))
    | inr bytes =>
        match http_requestError E "POST" "https://filebin.net" with
        | Some err => ([], Returns (zeroResponse, Some err))
        | None =>
            ([Sent (filebinRequest filename bytes)],
             match http_roundTrip E (filebinRequest filename bytes) with
             | inl err => Returns (zeroResponse, Some err)
             | inr resp =>
                 match RespBody resp with
                 | inl err => Returns (zeroResponse, Some err)
                 | inr body =>
                     match json_Unmarshal_FilebinSuccess E body with
                     | inl err => Returns (zeroResponse, Some err)
                     | inr s =>
                         obind (index (Links s) 1) (fun link =>
                           Returns ({| Status := negb (Href link =? EmptyString)%string;
                                       FullURL := Href link;
                                       ShortURL := EmptyString |}, None))
                     end
                 end
             end)
        end
    end.
Proof.
  unfold FilebinUpload, HTTP.NewRequest.
  destruct (os_Open E filename) as [err|bytes]; [reflexivity|].
  destruct (http_requestError E "POST" "https://filebin.net") as [err|]; [reflexivity|].
  unfold HTTP.Do, bind, emit, ret, lift. cbv beta iota zeta.
  change (HTTP.HeaderSet
            (HTTP.HeaderSet
               {| Method := "POST"; Target := "https://filebin.net"; Header := [];
                  Body := RawBody bytes |} "Filename" (Filepath.Base filename))
            "Content-Type" "application/x-www-form-urlencoded")
    with (filebinRequest filename bytes).
  destruct (http_roundTrip E (filebinRequest filename bytes)) as [err|resp]; [reflexivity|].
  destruct (RespBody resp) as [err|body]; [reflexivity|].
  destruct (json_Unmarshal_FilebinSuccess E body) as [err|s]; [reflexivity|].
  destruct (index (Links s) 1) as [link| |]; try reflexivity.
  simpl. destruct (Href link =? EmptyString)%string eqn:Hh; [|reflexivity].
  apply String.eqb_eq in Hh. rewrite Hh. reflexivity.
Qed.

End MoreUploads.

(** X4.  Every request an entry point sends is the POST request of its own
    endpoint (for [FilebinUpload], with the bytes of a file that could be
    opened), and no entry point sends more than one. *)
Theorem requests_go_to_own_endpoint (E : Env) (filename : string) (r : Request) :
  (In (Sent r) (trace (AnonFilesUpload E filename)) ->
   r = formRequest E filename "https://api.anonfiles.com/upload")
  /\ (In (Sent r) (trace (BayFilesUpload E filename)) ->
      r = formRequest E filename "https://api.bayfiles.com/upload")
  /\ (In (Sent r) (trace (ImagebinUpload E filename)) ->
      r = formRequest E filename "https://imagebin.ca/upload.php")
  /\ (In (Sent r) (trace (FilebinUpload E filename)) ->
      exists bytes, os_Open E filename = inr bytes /\ r = filebinRequest filename bytes)
  /\ (List.length (trace (AnonFilesUpload E filename)) <= 1
      /\ List.length (trace (BayFilesUpload E filename)) <= 1
      /\ List.length (trace (ImagebinUpload E filename)) <= 1
      /\ List.length (trace (FilebinUpload E filename)) <= 1)%nat.
Proof.
  unfold AnonFilesUpload, BayFilesUpload.
  rewrite !uploadFile_cases, ImagebinUpload_cases, FilebinUpload_cases.
  unfold Run.imagebinURL, trace.
  destruct (multipart_writeError E);
    destruct (http_requestError E "POST" "https://api.anonfiles.com/upload");
    destruct (http_requestError E "POST" "https://api.bayfiles.com/upload");
    destruct (http_requestError E "POST" "https://imagebin.ca/upload.php");
    destruct (os_Open E filename) as [perr|bytes];
    destruct (http_requestError E "POST" "https://filebin.net");
    cbn [fst List.length In];
    repeat split; try lia;
      try (intros [H|[]]; solve [discriminate H | (injection H as <-; reflexivity)
                                | (injection H as <-; eexists; split; reflexivity)]);
      try (intros []).
Qed.

Lemma requests_go_to_own_endpoint_witness :
  In (Sent {| Method := "POST";
              Target := "https://api.bayfiles.com/upload";
              Header := [("Content-Type", "multipart/form-data; boundary=0123456789abcdef")];
              Body := FormBody "0123456789abcdef"
                        [{| FieldName := "file"; FileName := "report.pdf";
                            Content := "%PDF-1.4" |}] true |})
     (trace (BayFilesUpload (Run.answering Run.uploadedBody) "report.pdf"))
  /\ {| Method := "POST";
        Target := "https://api.bayfiles.com/upload";
        Header := [("Content-Type", "multipart/form-data; boundary=0123456789abcdef")];
        Body := FormBody "0123456789abcdef"
                  [{| FieldName := "file"; FileName := "report.pdf";
                      Content := "%PDF-1.4" |}] true |}
     = formRequest (Run.answering Run.uploadedBody) "report.pdf"
         "https://api.bayfiles.com/upload".
Proof.
  split; [left; reflexivity|].
  apply (proj1 (proj2 (requests_go_to_own_endpoint (Run.answering Run.uploadedBody)
                         "report.pdf" _))).
  left. reflexivity.
Defined.

Ltac split_result H :=
  unfold result in H; cbn [snd] in H; unfold obind in H;
  repeat match type of H with
         | context [match ?x with _ => _ end] => destruct x eqn:?
         end;
  try discriminate H.

(** X5.  An error returned by an entry point is one that the environment
    produced on the way: the request was refused, the round trip failed, the
    body could not be read or decoded; for [ImagebinUpload] also a part
    header that could not be written, for [FilebinUpload] also the file that
    could not be opened.  No entry point makes up an error, and [os.Open]
    is a source of errors for [FilebinUpload] only. *)
Theorem returned_errors_come_from_environment (E : Env) (filename destURI : string)
        (r : UniversalResponse) (err : error) :
  (result (uploadFile E filename destURI) = Returns (r, Some err) ->
   http_requestError E "POST" destURI = Some err
   \/ http_roundTrip E (formRequest E filename destURI) = inl err
   \/ exists resp,
        http_roundTrip E (formRequest E filename destURI) = inr resp /\
        (RespBody resp = inl err
         \/ exists body, RespBody resp = inr body /\
                         json_Unmarshal_AnonFilesSuccess E body = inl err))
  /\ (result (ImagebinUpload E filename) = Returns (r, Some err) ->
      multipart_writeError E = Some err
      \/ http_requestError E "POST" "https://imagebin.ca/upload.php" = Some err
      \/ http_roundTrip E (formRequest E filename "https://imagebin.ca/upload.php") = inl err
      \/ exists resp,
           http_roundTrip E (formRequest E filename "https://imagebin.ca/upload.php") = inr resp
           /\ RespBody resp = inl err)
  /\ (result (FilebinUpload E filename) = Returns (r, Some err) ->
      (exists e, os_Open E filename = inl e /\ err = ErrPath e)
      \/ exists bytes,
           os_Open E filename = inr bytes /\
           (http_requestError E "POST" "https://filebin.net" = Some err
            \/ http_roundTrip E (filebinRequest filename bytes) = inl err
            \/ exists resp,
                 http_roundTrip E (filebinRequest filename bytes) = inr resp /\
                 (RespBody resp = inl err
                  \/ exists body, RespBody resp = inr body /\
                                  json_Unmarshal_FilebinSuccess E body = inl err))).
Proof.
  rewrite uploadFile_cases, ImagebinUpload_cases, FilebinUpload_cases.
  unfold Run.imagebinURL.
  repeat split; intros H; split_result H; injection H as <- <-; eauto 12.
Qed.

Lemma returned_errors_come_from_environment_witness :
  result (ImagebinUpload (Double.env Run.files Fault.truncated [] []) "report.pdf")
  = Returns (zeroResponse, Some (ErrRead "unexpected EOF"))
  /\ exists resp,
       Fault.truncated
         (formRequest (Double.env Run.files Fault.truncated [] []) "report.pdf"
            "https://imagebin.ca/upload.php") = inr resp
       /\ RespBody resp = inl (ErrRead "unexpected EOF").
Proof.
  split; [reflexivity|].
  destruct (proj1 (proj2 (returned_errors_come_from_environment
                            (Double.env Run.files Fault.truncated [] []) "report.pdf"
                            EmptyString zeroResponse (ErrRead "unexpected EOF")))
              eq_refl) as [H | [H | [H | H]]];
    [discriminate H | discriminate H | discriminate H | exact H].
Defined.

(** X6.  When [ImagebinUpload] returns with a nil error, the server's answer
    was read in full, ShortURL is empty, and either Status is false with an
    empty FullURL, the marker "url:" being absent from the answer or ending
    it, or Status is true and the answer is some text, the marker, and
    FullURL, in which the marker does not occur. *)
Theorem imagebin_success (E : Env) (filename : string) (r : UniversalResponse) :
  result (ImagebinUpload E filename) = Returns (r, None) ->
  exists resp body,
    http_roundTrip E (formRequest E filename "https://imagebin.ca/upload.php") = inr resp /\
    RespBody resp = inr body /\
    ShortURL r = EmptyString /\
    ((Status r = false /\ FullURL r = EmptyString /\
      (absent "url:" body \/ exists pre, body = (pre ++ "url:")%string))
     \/ (Status r = true /\ absent "url:" (FullURL r) /\
         exists pre, body = (pre ++ "url:" ++ FullURL r)%string)).
Proof.
  rewrite ImagebinUpload_cases. unfold Run.imagebinURL.
  intros H. split_result H. injection H as <-.
  eexists. eexists. split; [reflexivity|]. split; [eassumption|].
  split; [reflexivity|]. cbn [Status FullURL].
  match goal with
  | Hu : getStringAfterWord _ _ = Returns ?url |- _ =>
      destruct (url =? EmptyString)%string eqn:Ha;
      [ left; apply String.eqb_eq in Ha; subst url;
        repeat split; now apply getStringAfterWord_empty_inv
      | right; apply String.eqb_neq in Ha;
        destruct (getStringAfterWord_rest _ _ _ Hu Ha) as [Hpre Habs];
        repeat split; assumption ]
  end.
Qed.

Lemma imagebin_success_witness :
  result (ImagebinUpload (Run.answering "ok url:https://imagebin.ca/abc123") "report.pdf")
  = Returns ({| Status := true; FullURL := "https://imagebin.ca/abc123";
                ShortURL := EmptyString |}, None)
  /\ exists resp body,
       Double.answers "ok url:https://imagebin.ca/abc123"
         (formRequest (Run.answering "ok url:https://imagebin.ca/abc123") "report.pdf"
            "https://imagebin.ca/upload.php") = inr resp /\
       RespBody resp = inr body /\
       EmptyString = EmptyString /\
       ((true = false /\ "https://imagebin.ca/abc123" = EmptyString /\
         (absent "url:" body \/ exists pre, body = (pre ++ "url:")%string))
        \/ (true = true /\ absent "url:" "https://imagebin.ca/abc123" /\
            exists pre, body = (pre ++ "url:" ++ "https://imagebin.ca/abc123")%string)).
Proof.
  split; [reflexivity|].
  exact (imagebin_success (Run.answering "ok url:https://imagebin.ca/abc123") "report.pdf"
           {| Status := true; FullURL := "https://imagebin.ca/abc123";
              ShortURL := EmptyString |} eq_refl).
Defined.

(** X7.  When [FilebinUpload] returns with a nil error, the file was opened
    and sent, the answer decoded, and the result is read off the second link
    alone: FullURL is its href, Status tells whether that href is non-empty,
    ShortURL is empty. *)
Theorem filebin_success (E : Env) (filename : string) (r : UniversalResponse) :
  result (FilebinUpload E filename) = Returns (r, None) ->
  exists bytes resp body s link,
    os_Open E filename = inr bytes /\
    http_roundTrip E (filebinRequest filename bytes) = inr resp /\
    RespBody resp = inr body /\
    json_Unmarshal_FilebinSuccess E body = inr s /\
    nth_error (Links s) 1 = Some link /\
    r = {| Status := negb (Href link =? EmptyString)%string;
           FullURL := Href link;
           ShortURL := EmptyString |}.
Proof.
  rewrite FilebinUpload_cases. unfold index. change (1 <? 0) with false.
  change (Z.to_nat 1) with 1%nat. cbv iota.
  intros H. split_result H. injection H as <-.
  repeat eexists; eauto.
  match goal with
  | Hn : match nth_error ?l 1 with _ => _ end = Returns _ |- _ =>
      destruct (nth_error l 1); [injection Hn as ->; reflexivity | discriminate Hn]
  end.
Qed.

Lemma filebin_success_witness :
  result (FilebinUpload (Run.answering (Run.linksBody "b")) "report.pdf")
  = Returns ({| Status := true; FullURL := "b"; ShortURL := EmptyString |}, None)
  /\ exists bytes resp body s link,
       os_Open (Run.answering (Run.linksBody "b")) "report.pdf" = inr bytes /\
       Double.answers (Run.linksBody "b") (filebinRequest "report.pdf" bytes) = inr resp /\
       RespBody resp = inr body /\
       Double.decode Run.filebinTable body = inr s /\
       nth_error (Links s) 1 = Some link /\
       {| Status := true; FullURL := "b"; ShortURL := EmptyString |}
       = {| Status := negb (Href link =? EmptyString)%string;
            FullURL := Href link;
            ShortURL := EmptyString |}.
Proof.
  split; [reflexivity|].
  exact (filebin_success (Run.answering (Run.linksBody "b")) "report.pdf"
           {| Status := true; FullURL := "b"; ShortURL := EmptyString |} eq_refl).
Defined.

(** X8.  When the header of the form's part cannot be written, [uploadFile]
    does not return: it logs the error and exits the process with status 1;
    [ImagebinUpload] returns the error with the zero response.  Neither
    opens a connection. *)
Theorem part_header_failure (E : Env) (filename destURI : string) (err : error) :
  multipart_writeError E = Some err ->
  uploadFile E filename destURI = ([LogFatal err], Exits 1)
  /\ AnonFilesUpload E filename = ([LogFatal err], Exits 1)
  /\ BayFilesUpload E filename = ([LogFatal err], Exits 1)
  /\ ImagebinUpload E filename = ([], Returns (zeroResponse, Some err)).
Proof.
  intros Hw. unfold AnonFilesUpload, BayFilesUpload.
  rewrite !uploadFile_cases, ImagebinUpload_cases, Hw. repeat split.
Qed.

Lemma part_header_failure_witness :
  AnonFilesUpload (Fault.writeFails Run.offline (ErrMultipart "short write")) "report.pdf"
  = ([LogFatal (ErrMultipart "short write")], Exits 1).
Proof.
  apply (part_header_failure (Fault.writeFails Run.offline (ErrMultipart "short write"))
           "report.pdf" EmptyString (ErrMultipart "short write")).
  reflexivity.
Defined.

(** ** The file name sent to filebin.net *)

Section BaseFacts.

Import Filepath.

Lemma list_ascii_app (a b : string) :
  list_ascii_of_string (a ++ b) = (list_ascii_of_string a ++ list_ascii_of_string b)%list.
Proof. induction a as [|c a IH]; simpl; [reflexivity | now rewrite IH]. Qed.

Lemma takeElement_stops (l rest : list ascii) :
  (forall c, In c l -> isSeparator c = false) ->
  takeElement (l ++ "/"%char :: rest) = l.
Proof.
  induction l as [|c l IH]; intros Hl; simpl.
  - reflexivity.
  - rewrite (Hl c (or_introl eq_refl)). f_equal. apply IH.
    intros c' Hc'. apply Hl. now right.
Qed.

Lemma takeElement_all (l : list ascii) :
  (forall c, In c l -> isSeparator c = false) -> takeElement l = l.
Proof.
  induction l as [|c l IH]; intros Hl; simpl.
  - reflexivity.
  - rewrite (Hl c (or_introl eq_refl)). f_equal. apply IH.
    intros c' Hc'. apply Hl. now right.
Qed.

Lemma dropSeparators_keeps (l : list ascii) (c : ascii) :
  isSeparator c = false -> dropSeparators (c :: l) = c :: l.
Proof. intros H. simpl. now rewrite H. Qed.

(** The base of a path that ends in a name without slashes is that name. *)
Lemma Base_last_element (dir name : string) :
  name <> EmptyString ->
  ~ In "/"%char (list_ascii_of_string name) ->
  Base (dir ++ "/" ++ name) = name /\ Base name = name.
Proof.
  intros Hne Hno.
  assert (Hsep : forall c, In c (rev (list_ascii_of_string name)) -> isSeparator c = false).
  { intros c Hc. apply in_rev in Hc. unfold isSeparator. apply Ascii.eqb_neq.
    intros ->. exact (Hno Hc). }
  assert (Hrev : exists c l, rev (list_ascii_of_string name) = c :: l).
  { destruct (rev (list_ascii_of_string name)) as [|c l] eqn:Hr; [|eauto].
    exfalso. apply Hne. rewrite <- (string_of_list_ascii_of_string name).
    rewrite <- (rev_involutive (list_ascii_of_string name)), Hr. reflexivity. }
  destruct Hrev as (c & l & Hr).
  assert (Hback : string_of_list_ascii (rev (c :: l)) = name).
  { rewrite <- Hr, rev_involutive. apply string_of_list_ascii_of_string. }
  assert (Hc : isSeparator c = false) by (apply Hsep; rewrite Hr; now left).
  assert (Hlist : rev (list_ascii_of_string (dir ++ "/" ++ name))
                  = ((c :: l) ++ "/"%char :: rev (list_ascii_of_string dir))%list).
  { rewrite !list_ascii_app, !rev_app_distr, Hr, <- app_assoc. reflexivity. }
  split; unfold Base.
  - replace ((dir ++ "/" ++ name) =? EmptyString)%string with false.
    2:{ symmetry. apply String.eqb_neq. destruct dir; discriminate. }
    rewrite Hlist. rewrite <- app_comm_cons, (dropSeparators_keeps _ c Hc).
    rewrite app_comm_cons, takeElement_stops by (rewrite <- Hr; exact Hsep).
    exact Hback.
  - replace (name =? EmptyString)%string with false
      by (symmetry; now apply String.eqb_neq).
    rewrite Hr, (dropSeparators_keeps _ c Hc).
    rewrite takeElement_all by (rewrite <- Hr; exact Hsep).
    exact Hback.
Qed.

End BaseFacts.

(** X9.  [FilebinUpload] names the file by the last element of its path:
    for a readable file [dir/name], [name] being non-empty and free of
    slashes, the one request sent carries the header [Filename: name], the
    form-urlencoded content type, and the file's bytes as its body. *)
Theorem filebin_sends_base_name (E : Env) (dir name bytes : string) :
  name <> EmptyString ->
  ~ In "/"%char (list_ascii_of_string name) ->
  os_Open E (dir ++ "/" ++ name) = inr bytes ->
  http_requestError E "POST" "https://filebin.net" = None ->
  trace (FilebinUpload E (dir ++ "/" ++ name))
  = [Sent {| Method := "POST";
             Target := "https://filebin.net";
             Header := [("Filename", name);
                        ("Content-Type", "application/x-www-form-urlencoded")];
             Body := RawBody bytes |}].
Proof.
  intros Hne Hno Ho Hr. rewrite FilebinUpload_cases, Ho, Hr.
  unfold trace, filebinRequest. cbn [fst].
  now rewrite (proj1 (Base_last_element dir name Hne Hno)).
Qed.

Lemma filebin_sends_base_name_witness :
  trace (FilebinUpload (Run.answering (Run.linksBody "b")) ("docs" ++ "/" ++ "report.pdf"))
  = [Sent {| Method := "POST";
             Target := "https://filebin.net";
             Header := [("Filename", "report.pdf");
                        ("Content-Type", "application/x-www-form-urlencoded")];
             Body := RawBody "%PDF-1.4" |}].
Proof.
  apply (filebin_sends_base_name (Run.answering (Run.linksBody "b")) "docs" "report.pdf"
           "%PDF-1.4").
  - discriminate.
  - simpl. intros H.
    repeat (destruct H as [H|H]; [discriminate H|]). exact H.
  - reflexivity.
  - reflexivity.
Defined.

(** ** More on [round] *)

Section MoreRoundingFacts.

Import Float64.
Local Open Scope Q_scope.

Lemma Qneg_neg (q : Q) : q < 0 -> Qneg q = true.
Proof.
  unfold Qneg, Qlt. simpl. intros H. apply Z.ltb_lt. lia.
Qed.

(** With a threshold in (0, 1], the fractional part reaches the threshold
    exactly when [floor (d + (1 - t))] is the next integer. *)
Lemma threshold_selects (d t : Q) :
  0 < t -> t <= 1 ->
  (if Qle_bool t (Qred (d - inject_Z (Qfloor d))) then Qceiling d else Qfloor d)
  = Qfloor (d + (1 - t)).
Proof.
  intros Ht0 Ht1.
  pose proof (Qfloor_le d) as Hlo. pose proof (Qlt_floor d) as Hhi.
  rewrite inject_Z_plus in Hhi. change (inject_Z 1) with 1 in Hhi.
  destruct (Qle_bool t (Qred (d - inject_Z (Qfloor d)))) eqn:Hc.
  - apply Qle_bool_iff in Hc. rewrite Qred_correct in Hc.
    assert (Hceil : Qceiling d = (Qfloor d + 1)%Z).
    { apply Qceiling_unique.
      - replace (Qfloor d + 1 - 1)%Z with (Qfloor d) by lia. lra.
      - rewrite inject_Z_plus. change (inject_Z 1) with 1. lra. }
    rewrite Hceil. symmetry.
    apply Qfloor_unique; rewrite !inject_Z_plus; change (inject_Z 1) with 1; lra.
  - assert (Hlt : ~ t <= Qred (d - inject_Z (Qfloor d))).
    { intros H. apply Qle_bool_iff in H. congruence. }
    rewrite Qred_correct in Hlt. symmetry.
    apply Qfloor_unique; rewrite ?inject_Z_plus; change (inject_Z 1) with 1; lra.
Qed.

(** Below zero the fractional part of [Modf] is never positive. *)
Lemma negative_fraction_below (d t : Q) :
  d < 0 -> 0 < t -> Qle_bool t (Qred (d - inject_Z (Qceiling d))) = false.
Proof.
  intros Hd Ht. destruct (Qle_bool _ _) eqn:Hc; [|reflexivity].
  apply Qle_bool_iff in Hc. rewrite Qred_correct in Hc.
  pose proof (Qle_ceiling d). lra.
Qed.

(** The fractional part of an integer is zero, on either side of zero. *)
Lemma integer_fraction_below (d t : Q) (z : Z) :
  d == inject_Z z -> 0 < t -> Qle_bool t (Qred (d - inject_Z (Qtrunc d))) = false.
Proof.
  intros Hd Ht. destruct (Qle_bool _ _) eqn:Hc; [|reflexivity].
  apply Qle_bool_iff in Hc. rewrite Qred_correct in Hc.
  assert (Htr : Qtrunc d = z).
  { unfold Qtrunc. destruct (Qneg d).
    - rewrite (Qceiling_comp _ _ Hd). apply Qceiling_Z.
    - rewrite (Qfloor_comp _ _ Hd). apply Qfloor_Z. }
  rewrite Htr in Hc. lra.
Qed.

End MoreRoundingFacts.

(** X10.  For a non-negative value and any threshold [t] with 0 < t <= 1,
    [round] moves the scaled value [d] up to the next integer exactly when
    its fractional part reaches [t]: the result is [floor (d + (1 - t))]
    divided by the scale and rounded to float64. *)
Theorem round_threshold (E : Env) (v t : Q) (places : Z) (pw d : Q) :
  (0 <= v)%Q -> (0 < t)%Q -> (t <= 1)%Q ->
  math_Pow E (Float64.Finite (10 # 1)) (Float64.ofInt places) = Float64.Finite pw ->
  (0 < pw)%Q ->
  Float64.fmul (Float64.Finite pw) (Float64.Finite v) = Float64.Finite d ->
  round E (Float64.Finite v) (Float64.Finite t) places
  = Float64.rnd64 (inject_Z (Qfloor (d + (1 - t))) / pw).
Proof.
  intros Hv Ht0 Ht1 Hpow Hpw Hmul.
  assert (Hd : (0 <= d)%Q).
  { apply (rnd64_nonneg (pw * v) d); [|exact Hmul].
    apply Qmult_le_0_compat; [now apply Qlt_le_weak | exact Hv]. }
  unfold round. rewrite Hpow, Hmul. unfold Float64.Modf, Float64.Qtrunc.
  rewrite (Qneg_nonneg d Hd). unfold Float64.fge.
  rewrite <- (threshold_selects d t Ht0 Ht1).
  destruct (Qle_bool _ _); unfold Float64.Ceil, Float64.Floor, Float64.fdiv;
    rewrite (Qzero_pos pw Hpw); reflexivity.
Qed.

Lemma round_threshold_witness :
  round Run.offline (Float64.Finite (5 # 4)) (Float64.Finite (1 # 4)) 0
  = Float64.Finite (2 # 1).
Proof.
  rewrite (round_threshold Run.offline (5 # 4) (1 # 4) 0 (1 # 1) (5 # 4)
             ltac:(discriminate) ltac:(reflexivity) ltac:(discriminate)
             ltac:(vm_compute; reflexivity) ltac:(reflexivity)
             ltac:(vm_compute; reflexivity)).
  vm_compute. reflexivity.
Defined.

(** X11.  Below zero [round] never rounds up: for a negative scaled value
    [d] and any positive threshold the result is [floor d] divided by the
    scale, rounded to float64. *)
Theorem round_negative_takes_floor (E : Env) (v t : Q) (places : Z) (pw d : Q) :
  (0 < t)%Q ->
  math_Pow E (Float64.Finite (10 # 1)) (Float64.ofInt places) = Float64.Finite pw ->
  (0 < pw)%Q ->
  Float64.fmul (Float64.Finite pw) (Float64.Finite v) = Float64.Finite d ->
  (d < 0)%Q ->
  round E (Float64.Finite v) (Float64.Finite t) places
  = Float64.rnd64 (inject_Z (Qfloor d) / pw).
Proof.
  intros Ht Hpow Hpw Hmul Hd.
  unfold round. rewrite Hpow, Hmul. unfold Float64.Modf, Float64.Qtrunc.
  rewrite (Qneg_neg d Hd). unfold Float64.fge.
  rewrite (negative_fraction_below d t Hd Ht).
  unfold Float64.Floor, Float64.fdiv. rewrite (Qzero_pos pw Hpw). reflexivity.
Qed.

Lemma round_negative_takes_floor_witness :
  round Run.offline (Float64.Finite (-11 # 4)) (Float64.Finite (1 # 2)) 0
  = Float64.Finite (-3 # 1).
Proof.
  rewrite (round_negative_takes_floor Run.offline (-11 # 4) (1 # 2) 0 (1 # 1) (-11 # 4)
             ltac:(reflexivity) ltac:(vm_compute; reflexivity) ltac:(reflexivity)
             ltac:(vm_compute; reflexivity) ltac:(reflexivity)).
  vm_compute. reflexivity.
Defined.

(** X12.  A value whose scaled value is an integer is left where it is,
    whatever its sign and whatever the positive threshold: the result is
    that integer divided by the scale, rounded to float64. *)
Theorem round_keeps_integers (E : Env) (v t : Q) (places : Z) (pw d : Q) (z : Z) :
  (0 < t)%Q ->
  math_Pow E (Float64.Finite (10 # 1)) (Float64.ofInt places) = Float64.Finite pw ->
  (0 < pw)%Q ->
  Float64.fmul (Float64.Finite pw) (Float64.Finite v) = Float64.Finite d ->
  (d == inject_Z z)%Q ->
  round E (Float64.Finite v) (Float64.Finite t) places
  = Float64.rnd64 (inject_Z z / pw).
Proof.
  intros Ht Hpow Hpw Hmul Hd.
  unfold round. rewrite Hpow, Hmul. unfold Float64.Modf, Float64.fge.
  rewrite (integer_fraction_below d t z Hd Ht).
  unfold Float64.Floor, Float64.fdiv. rewrite (Qzero_pos pw Hpw).
  rewrite (Qfloor_comp _ _ Hd), Qfloor_Z. reflexivity.
Qed.

Lemma round_keeps_integers_witness :
  round Run.offline (Float64.Finite (-9 # 4)) (Float64.Finite (1 # 2)) 2
  = Float64.Finite (-9 # 4).
Proof.
  rewrite (round_keeps_integers Run.offline (-9 # 4) (1 # 2) 2 (100 # 1) (-225 # 1) (-225)
             ltac:(reflexivity) ltac:(vm_compute; reflexivity) ltac:(reflexivity)
             ltac:(vm_compute; reflexivity) ltac:(reflexivity)).
  vm_compute. reflexivity.
Defined.

(** X13.  [round] hands NaN through for every threshold and place count,
    and the infinities as well once the scale is a positive number. *)
Theorem round_special_values (E : Env) (t : Float64.float64) (places : Z) :
  round E Float64.NaN t places = Float64.NaN
  /\ forall pw,
       math_Pow E (Float64.Finite (10 # 1)) (Float64.ofInt places) = Float64.Finite pw ->
       (0 < pw)%Q ->
       round E Float64.PInf t places = Float64.PInf
       /\ round E Float64.NInf t places = Float64.NInf.
Proof.
  split.
  - unfold round.
    destruct (math_Pow E (Float64.Finite (10 # 1)) (Float64.ofInt places)); reflexivity.
  - intros pw Hpow Hpw. unfold round. rewrite Hpow. simpl.
    rewrite (Qzero_pos pw Hpw), (Qneg_nonneg pw (Qlt_le_weak _ _ Hpw)).
    simpl. rewrite (Qneg_nonneg pw (Qlt_le_weak _ _ Hpw)). split; reflexivity.
Qed.

Lemma round_special_values_witness :
  round Run.offline Float64.PInf (Float64.Finite (1 # 2)) 2 = Float64.PInf
  /\ round Run.offline Float64.NInf (Float64.Finite (1 # 2)) 2 = Float64.NInf.
Proof.
  apply (proj2 (round_special_values Run.offline (Float64.Finite (1 # 2)) 2) (100 # 1));
    [vm_compute; reflexivity | reflexivity].
Defined.

(** ** More on [prettySize] and [CheckFile] *)

Section MoreSizeFacts.

Import Float64.






End MoreSizeFacts.





(** ** Failures and panics of the entry points *)

(** X16.  When no server can be reached, every entry point returns the
    transport's error unchanged, with the zero response ([FilebinUpload]
    provided the file could be opened). *)
Theorem transport_failure_is_returned (E : Env) (filename bytes : string) (err : error) :
  multipart_writeError E = None ->
  (forall url, http_requestError E "POST" url = None) ->
  (forall req, http_roundTrip E req = inl err) ->
  result (AnonFilesUpload E filename) = Returns (zeroResponse, Some err)
  /\ result (BayFilesUpload E filename) = Returns (zeroResponse, Some err)
  /\ result (ImagebinUpload E filename) = Returns (zeroResponse, Some err)
  /\ (os_Open E filename = inr bytes ->
      result (FilebinUpload E filename) = Returns (zeroResponse, Some err)).
Proof.
  intros Hw Hr Hrt. unfold AnonFilesUpload, BayFilesUpload.
  rewrite !uploadFile_cases, ImagebinUpload_cases, FilebinUpload_cases.
  rewrite Hw, !Hr, !Hrt. repeat split.
  intros Ho. rewrite Ho, Hrt. reflexivity.
Qed.

Lemma transport_failure_is_returned_witness :
  result (FilebinUpload Run.offline "report.pdf")
  = Returns (zeroResponse, Some (ErrTransport "connection refused")).
Proof.
  apply (proj2 (proj2 (proj2 (transport_failure_is_returned Run.offline "report.pdf"
                                "%PDF-1.4" (ErrTransport "connection refused")
                                eq_refl (fun _ => eq_refl) (fun _ => eq_refl))))).
  reflexivity.
Defined.

(** X17.  The multipart paths never panic, and [FilebinUpload] panics in
    one situation only: the answer was read and decoded, and it has fewer
    than two links. *)
Theorem panics_only_on_short_links (E : Env) (filename destURI msg : string) :
  result (uploadFile E filename destURI) <> Panics msg
  /\ result (ImagebinUpload E filename) <> Panics msg
  /\ (result (FilebinUpload E filename) = Panics msg ->
      exists bytes resp body s,
        os_Open E filename = inr bytes /\
        http_roundTrip E (filebinRequest filename bytes) = inr resp /\
        RespBody resp = inr body /\
        json_Unmarshal_FilebinSuccess E body = inr s /\
        (List.length (Links s) < 2)%nat).
Proof.
  rewrite uploadFile_cases, ImagebinUpload_cases, FilebinUpload_cases.
  split; [|split].
  - intros H. split_result H.
  - intros H. unfold result in H. cbn [snd] in H.
    repeat match type of H with
           | context [match ?x with _ => _ end] => destruct x eqn:?
           end; try discriminate H.
    cbn [snd] in H.
    match type of H with
    | context [getStringAfterWord ?body "url:"] =>
        destruct (getStringAfterWord_returns body "url:") as [url Hu]; rewrite Hu in H
    end.
    discriminate H.
  - unfold index. change (1 <? 0) with false. change (Z.to_nat 1) with 1%nat. cbv iota.
    intros H. split_result H.
    repeat eexists; eauto.
    match goal with
    | Hn : match nth_error ?l 1 with _ => _ end = Panics _ |- _ =>
        destruct l as [|l0 [|l1 rest]]; simpl in *; try lia; discriminate Hn
    end.
Qed.

Lemma panics_only_on_short_links_witness :
  result (FilebinUpload (Run.answering Run.noLinksBody) "report.pdf")
  = Panics "index out of range"
  /\ exists bytes resp body s,
       os_Open (Run.answering Run.noLinksBody) "report.pdf" = inr bytes /\
       Double.answers Run.noLinksBody (filebinRequest "report.pdf" bytes) = inr resp /\
       RespBody resp = inr body /\
       Double.decode Run.filebinTable body = inr s /\
       (List.length (Links s) < 2)%nat.
Proof.
  split; [reflexivity|].
  exact (proj2 (proj2 (panics_only_on_short_links (Run.answering Run.noLinksBody)
                         "report.pdf" EmptyString "index out of range")) eq_refl).
Defined.
